(** * A command-line task tracker: storage layer and task manager

    Shallow embedding of [todo/storage.py] and [todo/core.py].  The program
    keeps one JSON document in a file of the user's home directory; every
    operation loads the whole document, changes it in memory and writes it
    back through a temporary file.

    The embedding follows the Python text: the document is the untyped value
    that [json.load] returns (dictionaries, lists, strings, integers), the
    functions run in a state-and-exception monad over a file system with a
    standard output, and the [json] module and the home directory are the
    platform the program is linked against. *)

From Stdlib Require Import ZArith String Ascii List Lia DecimalString DecimalPos DecimalN DecimalFacts.
From stdpp Require Import base strings list gmap.


(** ** Python values *)

(** The values [json.load] builds and [json.dump] accepts.  Numbers are
    Python integers (unbounded); no operation of the program creates a
    float, and a stored file holding one is outside this model.  A
    dictionary keeps its insertion order, which is the order [json.dump]
    writes its keys in. *)
#[warnings="-register-all"] Inductive value : Type :=
  | VNone
  | VBool (b : bool)
  | VInt (n : Z)
  | VStr (s : string)
  | VList (l : list value)
  | VDict (d : list (string * value)).

Inductive exn_class : Type :=
  | PermissionError
  | OSError
  | JSONDecodeError
  | ValueError
  | KeyError
  | TypeError
  | AttributeError
  | RecursionError.

Record exn : Type := Exn { exn_cls : exn_class; exn_msg : string }.

Inductive result (A : Type) : Type :=
  | Ok (a : A)
  | Raise (e : exn).
Arguments Ok {A} a.
Arguments Raise {A} e.

(** [k in d] *)
Fixpoint dict_contains (k : string) (d : list (string * value)) : bool :=
  match d with
  | [] => false
  | (k', _) :: d' => if String.eqb k k' then true else dict_contains k d'
  end.

(** [d[k]] for a dictionary [d] *)
Fixpoint dict_get (k : string) (d : list (string * value)) : option value :=
  match d with
  | [] => None
  | (k', v) :: d' => if String.eqb k k' then Some v else dict_get k d'
  end.

(** [d[k] = v]: an existing key keeps its place, a new one goes last. *)
Fixpoint dict_set (k : string) (v : value) (d : list (string * value))
  : list (string * value) :=
  match d with
  | [] => [(k, v)]
  | (k', v') :: d' =>
      if String.eqb k k' then (k, v) :: d' else (k', v') :: dict_set k v d'
  end.

(** [x[k]] with a string key [k], on any value [x]. *)
Definition getitem (x : value) (k : string) : result value :=
  match x with
  | VDict d =>
      match dict_get k d with
      | Some v => Ok v
      | None => Raise (Exn KeyError k)
      end
  | VList _ => Raise (Exn TypeError "list indices must be integers or slices, not str")
  | VStr _ => Raise (Exn TypeError "string indices must be integers")
  | _ => Raise (Exn TypeError "object is not subscriptable")
  end.

(** [x[k] = v] with a string key [k]. *)
Definition setitem (x : value) (k : string) (v : value) : result value :=
  match x with
  | VDict d => Ok (VDict (dict_set k v d))
  | VList _ => Raise (Exn TypeError "list indices must be integers or slices, not str")
  | _ => Raise (Exn TypeError "object does not support item assignment")
  end.

(** [x == n] for an integer [n]: a bool compares as 0 or 1. *)
Definition py_eq_int (x : value) (n : Z) : bool :=
  match x with
  | VInt m => Z.eqb m n
  | VBool b => Z.eqb (if b then 1 else 0) n
  | _ => false
  end.

(** [x + n] for an integer [n], as [x += n] computes it. *)
Definition py_add_int (x : value) (n : Z) : result value :=
  match x with
  | VInt m => Ok (VInt (m + n))
  | VBool b => Ok (VInt ((if b then 1 else 0) + n))
  | _ => Raise (Exn TypeError "unsupported operand type(s) for +=")
  end.

(** [x.append(v)] *)
Definition py_append (x : value) (v : value) : result value :=
  match x with
  | VList l => Ok (VList (l ++ [v]))
  | _ => Raise (Exn AttributeError "object has no attribute 'append'")
  end.

Fixpoint chars (s : string) : list string :=
  match s with
  | EmptyString => []
  | String c s' => String c EmptyString :: chars s'
  end.

(** [iter(x)]: the elements a [for] loop over [x] visits. *)
Definition py_iter (x : value) : result (list value) :=
  match x with
  | VList l => Ok l
  | VStr s => Ok (map VStr (chars s))
  | VDict d => Ok (map (λ kv, VStr (fst kv)) d)
  | _ => Raise (Exn TypeError "object is not iterable")
  end.

(** [len(x)] *)
Definition py_len (x : value) : result nat :=
  match x with
  | VList l => Ok (List.length l)
  | VStr s => Ok (String.length s)
  | VDict d => Ok (List.length d)
  | _ => Raise (Exn TypeError "object has no len()")
  end.

(** ** Paths *)

Record path : Type := Path { parent : string; name : string }.

#[global] Instance path_eq_dec : EqDecision path.
Proof. solve_decision. Defined.

#[global] Instance path_countable : Countable path.
Proof.
  refine (inj_countable' (λ p, (parent p, name p)) (λ dn, Path dn.1 dn.2) _).
  by intros [].
Defined.

Definition path_str (p : path) : string := parent p +:+ "/" +:+ name p.

(** [s.rfind('.')] *)
Fixpoint rfind_dot (s : string) : option nat :=
  match s with
  | EmptyString => None
  | String c s' =>
      match rfind_dot s' with
      | Some i => Some (S i)
      | None => if Ascii.eqb c "." then Some 0 else None
      end
  end.

(** [PurePath.suffix]: the last dot-separated part of the name, unless the
    only dot leads or ends the name. *)
Definition suffix (p : path) : string :=
  match rfind_dot (name p) with
  | Some i =>
      if Nat.ltb 0 i && Nat.ltb i (String.length (name p) - 1)
      then String.substring i (String.length (name p) - i) (name p)
      else ""
  | None => ""
  end.

(** [PurePath.with_suffix] *)
Definition with_suffix (p : path) (sfx : string) : path :=
  let old_suffix := suffix p in
  Path (parent p)
       (String.substring 0 (String.length (name p) - String.length old_suffix) (name p)
        +:+ sfx).

(** ** The world: files, standard output, and how the system answers *)

Inductive errno : Type := EACCES | EPERM | EIO | ENOSPC | EROFS | EISDIR | ENOENT.

(** How Python raises a failed system call: [EACCES] and [EPERM] as
    [PermissionError], the others as [OSError] (or a subclass of it that no
    handler of the program tells apart). *)
Definition os_exn (e : errno) : exn :=
  match e with
  | EACCES => Exn PermissionError "[Errno 13] Permission denied"
  | EPERM => Exn PermissionError "[Errno 1] Operation not permitted"
  | EIO => Exn OSError "[Errno 5] Input/output error"
  | ENOSPC => Exn OSError "[Errno 28] No space left on device"
  | EROFS => Exn OSError "[Errno 30] Read-only file system"
  | EISDIR => Exn OSError "[Errno 21] Is a directory"
  | ENOENT => Exn OSError "[Errno 2] No such file or directory"
  end.

(** The system calls of the storage layer.  A write names the offset it
    writes at, so that a failure can strike in the middle of a file. *)
Inductive syscall : Type :=
  | SysOpenRead (p : path)
  | SysMkdir (d : string)
  | SysOpenWrite (p : path)
  | SysWrite (p : path) (offset : nat)
  | SysReplace (src dst : path).

(** [files] maps the path of each regular file to its text; [stdout] is
    what has been printed; [fault] is the environment: the error, if any,
    with which the system answers a call.  The directory tree is not
    modelled: [mkdir] succeeds or fails as [fault] says. *)
Record World : Type := mkWorld {
  files : gmap path string;
  stdout : list string;
  fault : syscall → option errno
}.

Definition set_files (f : gmap path string → gmap path string) (w : World) : World :=
  mkWorld (f (files w)) (stdout w) (fault w).

(** ** The monad of the program: state and exceptions *)

Definition M (A : Type) : Type := World → result A * World.

Definition ret {A} (a : A) : M A := λ w, (Ok a, w).
Definition raise {A} (e : exn) : M A := λ w, (Raise e, w).

Definition bind {A B} (m : M A) (k : A → M B) : M B :=
  λ w, match m w with
       | (Ok a, w') => k a w'
       | (Raise e, w') => (Raise e, w')
       end.

Definition lift {A} (r : result A) : M A := λ w, (r, w).

(** [try: m  except ... as e: h e] *)
Definition try_except {A} (m : M A) (h : exn → M A) : M A :=
  λ w, match m w with
       | (Ok a, w') => (Ok a, w')
       | (Raise e, w') => h e w'
       end.

Notation "'let!' x ':=' m 'in' k" := (bind m (λ x, k))
  (at level 10, x name, m at level 100, k at level 200).
Notation "m '>>' k" := (bind m (λ _, k))
  (at level 100, k at level 200, right associativity).

Definition print (s : string) : M unit :=
  λ w, (Ok tt, mkWorld (files w) (stdout w ++ [s]) (fault w)).

Definition syscall_gate (c : syscall) : M unit :=
  λ w, match fault w c with
       | Some e => (Raise (os_exn e), w)
       | None => (Ok tt, w)
       end.

(** [p.exists()] *)
Definition path_exists (p : path) : M bool :=
  λ w, (Ok (bool_decide (is_Some (files w !! p))), w).

(** [open(p, 'r')] and reading the whole file *)
Definition sys_read (p : path) : M string :=
  syscall_gate (SysOpenRead p) >>
  λ w, match files w !! p with
       | Some text => (Ok text, w)
       | None => (Raise (os_exn ENOENT), w)
       end.

(** [d.mkdir(parents=True, exist_ok=True)] *)
Definition sys_mkdir (d : string) : M unit := syscall_gate (SysMkdir d).

(** [open(p, 'w')]: the file is created, or emptied if it is there. *)
Definition sys_open_w (p : path) : M unit :=
  syscall_gate (SysOpenWrite p) >>
  λ w, (Ok tt, set_files (λ fs, <[p := ""]> fs) w).

(** Writing [chunk] at the end of the open file [p]. *)
Definition sys_write (p : path) (chunk : string) : M unit :=
  λ w, let old := default "" (files w !! p) in
       match fault w (SysWrite p (String.length old)) with
       | Some e => (Raise (os_exn e), w)
       | None => (Ok tt, set_files (λ fs, <[p := old +:+ chunk]> fs) w)
       end.

(** [src.replace(dst)]: the rename of the system, in one step. *)
Definition sys_replace (src dst : path) : M unit :=
  syscall_gate (SysReplace src dst) >>
  λ w, match files w !! src with
       | Some text => (Ok tt, set_files (λ fs, <[dst := text]> (delete src fs)) w)
       | None => (Raise (os_exn ENOENT), w)
       end.

(** ** The platform *)

(** What the program takes from outside its own text: the home directory
    ([Path.home()]) and the [json] module.  [json_dump v] is the text
    [json.dump(v, f, indent=2, ensure_ascii=False)] writes; [json_load] is
    [json.load] on the text of a file. *)
Class Platform : Type := {
  home : string;
  json_dump : value → string;
  json_load : string → result value
}.

(** ** todo/storage.py *)

Section Storage.
Context `{Platform}.

Definition STORAGE_FILE : path := Path home ".todo.json".

Definition _get_default_data : value :=
  VDict [("tasks", VList []); ("next_id", VInt 1)].

Definition load_data : M value :=
  let! there := path_exists STORAGE_FILE in
  if negb there then ret _get_default_data else
  try_except
    (let! text := sys_read STORAGE_FILE in
     let! data := lift (json_load text) in
     let corrupted :=
       print "Warning: Corrupted data file. Resetting to empty state." >>
       ret _get_default_data in
     match data with
     | VDict d =>
         if negb (dict_contains "tasks" d) || negb (dict_contains "next_id" d)
         then corrupted
         else ret data
     | _ => corrupted
     end)
    (λ e,
       match exn_cls e with
       | JSONDecodeError =>
           print "Warning: Corrupted JSON file. Resetting to empty state." >>
           ret _get_default_data
       | PermissionError =>
           print ("Error: Permission denied when reading " +:+ path_str STORAGE_FILE) >>
           raise e
       | _ =>
           print ("Error: Failed to load data: " +:+ exn_msg e) >>
           raise e
       end).

(** [json.dump(data, f, ...)]: the text reaches the file one write after
    the other; one character per write is the finest grain a reader or a
    crash can see. *)
Fixpoint write_all (p : path) (pieces : list string) : M unit :=
  match pieces with
  | [] => ret tt
  | c :: rest => sys_write p c >> write_all p rest
  end.

Definition save_data (data : value) : M unit :=
  try_except
    (sys_mkdir (parent STORAGE_FILE) >>
     let temp_file := with_suffix STORAGE_FILE ".tmp" in
     sys_open_w temp_file >>
     write_all temp_file (chars (json_dump data)) >>
     sys_replace temp_file STORAGE_FILE)
    (λ e,
       match exn_cls e with
       | PermissionError =>
           print ("Error: Permission denied when writing to " +:+ path_str STORAGE_FILE) >>
           raise e
       | _ =>
           print ("Error: Failed to save data: " +:+ exn_msg e) >>
           raise e
       end).

End Storage.

(** ** todo/core.py *)

Section Core.
Context `{Platform}.

(** [now] is [datetime.now().isoformat()] at the time of the call. *)
Definition add_task (description : string) (now : string) : M value :=
  let! data := load_data in
  let! next := lift (getitem data "next_id") in
  let task := VDict [("id", next);
                     ("description", VStr description);
                     ("completed", VBool false);
                     ("created_at", VStr now)] in
  let! tasks := lift (getitem data "tasks") in
  let! tasks := lift (py_append tasks task) in
  let! data := lift (setitem data "tasks" tasks) in
  let! next := lift (getitem data "next_id") in
  let! next := lift (py_add_int next 1) in
  let! data := lift (setitem data "next_id" next) in
  save_data data >>
  ret task.

Definition list_tasks : M value :=
  let! data := load_data in
  lift (getitem data "tasks").

(** The loop of [complete_task] over the elements still to visit; [seen]
    are the elements already passed.  At the first match the task is
    changed where it stands and the whole document is saved. *)
Fixpoint complete_scan (data : value) (task_id : Z) (seen rest : list value) : M bool :=
  match rest with
  | [] => ret false
  | task :: rest' =>
      let! i := lift (getitem task "id") in
      if py_eq_int i task_id then
        let! task := lift (setitem task "completed" (VBool true)) in
        let! data := lift (setitem data "tasks" (VList (seen ++ task :: rest'))) in
        save_data data >>
        ret true
      else complete_scan data task_id (seen ++ [task]) rest'
  end.

Definition complete_task (task_id : Z) : M bool :=
  let! data := load_data in
  let! tasks := lift (getitem data "tasks") in
  let! elems := lift (py_iter tasks) in
  complete_scan data task_id [] elems.

(** [[task for task in tasks if task["id"] != task_id]] *)
Fixpoint keep_others (task_id : Z) (elems : list value) : result (list value) :=
  match elems with
  | [] => Ok []
  | task :: rest =>
      match getitem task "id" with
      | Raise e => Raise e
      | Ok i =>
          match keep_others task_id rest with
          | Raise e => Raise e
          | Ok kept => Ok (if py_eq_int i task_id then kept else task :: kept)
          end
      end
  end.

Definition delete_task (task_id : Z) : M bool :=
  let! data := load_data in
  let! tasks := lift (getitem data "tasks") in
  let! initial_length := lift (py_len tasks) in
  let! elems := lift (py_iter tasks) in
  let! kept := lift (keep_others task_id elems) in
  let! data := lift (setitem data "tasks" (VList kept)) in
  if Nat.ltb (List.length kept) initial_length then
    save_data data >>
    ret true
  else ret false.

Fixpoint get_scan (task_id : Z) (elems : list value) : result (option value) :=
  match elems with
  | [] => Ok None
  | task :: rest =>
      match getitem task "id" with
      | Raise e => Raise e
      | Ok i => if py_eq_int i task_id then Ok (Some task) else get_scan task_id rest
      end
  end.

Definition get_task (task_id : Z) : M (option value) :=
  let! data := load_data in
  let! tasks := lift (getitem data "tasks") in
  let! elems := lift (py_iter tasks) in
  lift (get_scan task_id elems).

End Core.

(** ** The data model of the specification *)

Record Task : Type := mkTask {
  id : Z;
  description : string;
  completed : bool;
  created_at : string
}.

Record Document : Type := mkDocument {
  tasks : list Task;
  next_id : Z
}.

(** A task as [add_task] builds it, a document as [_get_default_data] lays
    it out. *)
Definition task_value (t : Task) : value :=
  VDict [("id", VInt (id t));
         ("description", VStr (description t));
         ("completed", VBool (completed t));
         ("created_at", VStr (created_at t))].

Definition document_value (d : Document) : value :=
  VDict [("tasks", VList (map task_value (tasks d)));
         ("next_id", VInt (next_id d))].

Definition default_document : Document := mkDocument [] 1.

Definition has_id (task_id : Z) (t : Task) : bool := Z.eqb (id t) task_id.

Definition mark_completed (t : Task) : Task :=
  mkTask (id t) (description t) true (created_at t).

(** The first task with the given id is marked; [None] when there is none. *)
Fixpoint complete_first (task_id : Z) (ts : list Task) : option (list Task) :=
  match ts with
  | [] => None
  | t :: rest =>
      if has_id task_id t then Some (mark_completed t :: rest)
      else option_map (cons t) (complete_first task_id rest)
  end.

(** Every task with the given id is dropped. *)
Definition without_id (task_id : Z) (ts : list Task) : list Task :=
  List.filter (λ t, negb (has_id task_id t)) ts.

(** The invariant of the data model. *)
Definition ids_ok (d : Document) : Prop :=
  NoDup (map id (tasks d)) ∧ Forall (λ t, (id t < next_id d)%Z) (tasks d).

(** ** Worlds and runs *)

Definition fault_free (w : World) : Prop := ∀ c, fault w c = None.

Section Runs.
Context `{Platform}.

(** The document an operation starting in [w] works on. *)
Definition loads (w : World) (d : Document) : Prop :=
  (load_data w).1 = Ok (document_value d).

(** The text of the canonical file. *)
Definition on_disk (w : World) : option string := files w !! STORAGE_FILE.

Definition temp_file : path := with_suffix STORAGE_FILE ".tmp".

(** The system calls of one [save_data data], in program order. *)
Definition save_calls (data : value) : list syscall :=
  [SysMkdir (parent STORAGE_FILE); SysOpenWrite temp_file]
  ++ map (SysWrite temp_file) (seq 0 (String.length (json_dump data)))
  ++ [SysReplace temp_file STORAGE_FILE].

Fixpoint first_fault (w : World) (cs : list syscall) : option errno :=
  match cs with
  | [] => None
  | c :: rest =>
      match fault w c with
      | Some e => Some e
      | None => first_fault w rest
      end
  end.

(** The steps of the [try] block of [save_data], one system call each. *)
Definition save_steps (data : value) : list (M unit) :=
  [sys_mkdir (parent STORAGE_FILE); sys_open_w temp_file]
  ++ map (sys_write temp_file) (chars (json_dump data))
  ++ [sys_replace temp_file STORAGE_FILE].

Fixpoint run_steps (steps : list (M unit)) : M unit :=
  match steps with
  | [] => ret tt
  | s :: rest => s >> run_steps rest
  end.

(** The world a save leaves behind when the process stops after [k] of
    its steps (or earlier, at the step that fails). *)
Definition interrupted (k : nat) (data : value) (w : World) : World :=
  (run_steps (take k (save_steps data)) w).2.

(** The worlds a save passes through before the rename: the files of [w],
    but for the temporary file. *)
Definition writing (w w' : World) : Prop :=
  fault w' = fault w ∧
  (files w' = files w ∨ ∃ t, files w' = <[temp_file := t]> (files w)).

Definition keeps_writing (w : World) (s : M unit) : Prop :=
  ∀ w', writing w w' → writing w (s w').2.

(** One invocation of the task manager. *)
Inductive command : Type :=
  | Add (description now : string)
  | Complete (task_id : Z)
  | Delete (task_id : Z).

Definition run_command (c : command) : M value :=
  match c with
  | Add description now => add_task description now
  | Complete task_id => let! b := complete_task task_id in ret (VBool b)
  | Delete task_id => let! b := delete_task task_id in ret (VBool b)
  end.

(** Invocations one after the other; each starts in the world the one
    before it left, whether that one returned or raised. *)
Fixpoint run (cs : list command) (w : World) : list (result value) * World :=
  match cs with
  | [] => ([], w)
  | c :: rest =>
      let (r, w') := run_command c w in
      let (rs, w'') := run rest w' in
      (r :: rs, w'')
  end.


Definition is_add (c : command) : bool :=
  match c with Add _ _ => true | _ => false end.


(** What an invocation does to the document, and what it answers, in the
    words of the data model. *)
Definition apply_command (c : command) (d : Document) : Document :=
  match c with
  | Add description now =>
      mkDocument (tasks d ++ [mkTask (next_id d) description false now]) (next_id d + 1)
  | Complete task_id =>
      match complete_first task_id (tasks d) with
      | Some ts => mkDocument ts (next_id d)
      | None => d
      end
  | Delete task_id => mkDocument (without_id task_id (tasks d)) (next_id d)
  end.

Definition answer (c : command) (d : Document) : value :=
  match c with
  | Add description now => task_value (mkTask (next_id d) description false now)
  | Complete task_id => VBool (bool_decide (is_Some (complete_first task_id (tasks d))))
  | Delete task_id =>
      VBool (bool_decide (length (without_id task_id (tasks d)) < length (tasks d)))
  end.


Fixpoint apply_commands (cs : list command) (d : Document) : Document :=
  match cs with
  | [] => d
  | c :: rest => apply_commands rest (apply_command c d)
  end.

(** The [json] module reads back the document it wrote. *)
Definition round_trips (d : Document) : Prop :=
  json_load (json_dump (document_value d)) = Ok (document_value d).

(** [w'] is [w] after a save of [d]: the canonical file holds the text of
    [d] and the temporary file is gone. *)
Definition saved (d : Document) (w w' : World) : Prop :=
  files w' = <[STORAGE_FILE := json_dump (document_value d)]> (delete temp_file (files w)) ∧
  fault w' = fault w.

(** [w'] has the files of [w]: nothing was written. *)
Definition untouched (w w' : World) : Prop :=
  files w' = files w ∧ fault w' = fault w.

(** What [load_data] makes of the text of the file. *)
Definition accept (text : string) : M value :=
  match json_load text with
  | Ok (VDict d) =>
      if negb (dict_contains "tasks" d) || negb (dict_contains "next_id" d)
      then print "Warning: Corrupted data file. Resetting to empty state." >>
           ret _get_default_data
      else ret (VDict d)
  | Ok _ =>
      print "Warning: Corrupted data file. Resetting to empty state." >>
      ret _get_default_data
  | Raise e =>
      match exn_cls e with
      | JSONDecodeError =>
          print "Warning: Corrupted JSON file. Resetting to empty state." >>
          ret _get_default_data
      | PermissionError =>
          print ("Error: Permission denied when reading " +:+ path_str STORAGE_FILE) >>
          raise e
      | _ => print ("Error: Failed to load data: " +:+ exn_msg e) >> raise e
      end
  end.

(** The store of [w] holds [d]: [d] is what [load_data] returns from it
    whenever the system lets the file be read. *)
Definition holds (w : World) (d : Document) : Prop :=
  match on_disk w with
  | None => d = default_document
  | Some text => (accept text w).1 = Ok (document_value d)
  end.

(** A text [load_data] takes for a corrupted store: it does not parse,
    or parses to something that is not an object, or to an object without
    one of the two keys. *)
Definition corrupted (text : string) : Prop :=
  match json_load text with
  | Raise e => exn_cls e = JSONDecodeError
  | Ok (VDict d) => dict_contains "tasks" d = false ∨ dict_contains "next_id" d = false
  | Ok _ => True
  end.

End Runs.

(** ** A platform: the [json] module on values without floats *)

(** [PyJson.dumps] writes what [json.dump(v, f, indent=2, ensure_ascii=False)]
    writes, and [PyJson.loads] reads the text of a value as [json.load]
    does: white space, the three literals, integers, strings with their
    escapes, lists and objects, and [JSONDecodeError] for anything else.
    A text with a float literal, which [json.load] accepts, is refused
    here, values having no floats.  Strings are the bytes of their UTF-8
    encoding.  It is the instance at which the development is run. *)
Module PyJson.

Definition quote : ascii := "034"%char.
Definition backslash : ascii := "092"%char.
Definition newline : ascii := "010"%char.

Definition hex_digit (n : N) : ascii :=
  match n with
  | 0 => "0" | 1 => "1" | 2 => "2" | 3 => "3" | 4 => "4" | 5 => "5"
  | 6 => "6" | 7 => "7" | 8 => "8" | 9 => "9" | 10 => "a" | 11 => "b"
  | 12 => "c" | 13 => "d" | 14 => "e" | _ => "f"
  end%N%char.

(** The escapes of [json.encoder.py_encode_basestring]. *)
Definition escape (c : ascii) : string :=
  let n := N_of_ascii c in
  if Ascii.eqb c quote then String backslash (String quote "")
  else if Ascii.eqb c backslash then String backslash (String backslash "")
  else if N.eqb n 8 then String backslash "b"
  else if N.eqb n 9 then String backslash "t"
  else if N.eqb n 10 then String backslash "n"
  else if N.eqb n 12 then String backslash "f"
  else if N.eqb n 13 then String backslash "r"
  else if N.ltb n 32 then
    String backslash
      (String "u" (String "0" (String "0"
        (String (hex_digit (n / 16)%N) (String (hex_digit (n mod 16)%N) "")))))
  else String c "".

Fixpoint escape_all (s : string) : string :=
  match s with
  | EmptyString => ""
  | String c s' => escape c +:+ escape_all s'
  end.

Definition encode_string (s : string) : string :=
  String quote (escape_all s +:+ String quote "").

Definition encode_int (n : Z) : string :=
  match n with
  | Z0 => "0"
  | Zpos p => NilEmpty.string_of_uint (Pos.to_uint p)
  | Zneg p => String "-" (NilEmpty.string_of_uint (Pos.to_uint p))
  end.

Fixpoint spaces (n : nat) : string :=
  match n with
  | O => ""
  | S n' => String " " (spaces n')
  end.

(** A line break and the indentation of nesting depth [level]. *)
Definition indent (level : nat) : string := String newline (spaces (2 * level)).

(** The items of a list or dictionary, each on a line of its own at
    depth [level], with a comma after all but the last. *)
Fixpoint lines (level : nat) (items : list string) : string :=
  match items with
  | [] => ""
  | [x] => indent level +:+ x
  | x :: rest => indent level +:+ x +:+ "," +:+ lines level rest
  end.

Definition block (opening closing : string) (level : nat) (items : list string)
  : string :=
  match items with
  | [] => opening +:+ closing
  | _ => opening +:+ lines (S level) items +:+ indent level +:+ closing
  end.

Fixpoint encode (level : nat) (v : value) : string :=
  match v with
  | VNone => "null"
  | VBool b => if b then "true" else "false"
  | VInt n => encode_int n
  | VStr s => encode_string s
  | VList l => block "[" "]" level (map (encode (S level)) l)
  | VDict d =>
      block "{" "}" level
        (map (λ kv, match kv with
                    | (k, x) => encode_string k +:+ ": " +:+ encode (S level) x
                    end) d)
  end.

Definition dumps (v : value) : string := encode 0 v.

(** *** Reading *)

Definition is_ws (c : ascii) : bool :=
  let n := N_of_ascii c in
  N.eqb n 32 || N.eqb n 9 || N.eqb n 10 || N.eqb n 13.

Fixpoint skip_ws (s : string) : string :=
  match s with
  | String c s' => if is_ws c then skip_ws s' else s
  | EmptyString => s
  end.

Definition hex_value (c : ascii) : option N :=
  let n := N_of_ascii c in
  if N.leb 48 n && N.leb n 57 then Some (n - 48)%N
  else if N.leb 97 n && N.leb n 102 then Some (n - 87)%N
  else if N.leb 65 n && N.leb n 70 then Some (n - 55)%N
  else None.

Definition hex4 (a b c d : ascii) : option N :=
  match hex_value a, hex_value b, hex_value c, hex_value d with
  | Some x, Some y, Some z, Some t => Some (((x * 16 + y) * 16 + z) * 16 + t)
  | _, _, _, _ => None
  end%N.

Definition byte_of (n : N) : ascii := ascii_of_N (n mod 256)%N.

(** The UTF-8 bytes of a code point. *)
Definition utf8 (cp : N) : string :=
  (if N.ltb cp 128 then String (byte_of cp) ""
   else if N.ltb cp 2048 then
     String (byte_of (192 + cp / 64)) (String (byte_of (128 + cp mod 64)) "")
   else if N.ltb cp 65536 then
     String (byte_of (224 + cp / 4096))
       (String (byte_of (128 + (cp / 64) mod 64))
         (String (byte_of (128 + cp mod 64)) ""))
   else
     String (byte_of (240 + cp / 262144))
       (String (byte_of (128 + (cp / 4096) mod 64))
         (String (byte_of (128 + (cp / 64) mod 64))
           (String (byte_of (128 + cp mod 64)) ""))))%N.

Definition simple_escape (c : ascii) : option ascii :=
  if Ascii.eqb c quote then Some quote
  else if Ascii.eqb c backslash then Some backslash
  else if Ascii.eqb c "/" then Some "/"%char
  else if Ascii.eqb c "b" then Some "008"%char
  else if Ascii.eqb c "f" then Some "012"%char
  else if Ascii.eqb c "n" then Some "010"%char
  else if Ascii.eqb c "r" then Some "013"%char
  else if Ascii.eqb c "t" then Some "009"%char
  else None.

(** The text of a string after its opening quote: its content, and what
    follows the closing quote. *)
Fixpoint scan_string (s : string) : option (string * string) :=
  match s with
  | EmptyString => None
  | String c rest =>
      if Ascii.eqb c quote then Some ("", rest)
      else if Ascii.eqb c backslash then
        match rest with
        | EmptyString => None
        | String e rest1 =>
            if Ascii.eqb e "u" then
              match rest1 with
              | String h1 (String h2 (String h3 (String h4 rest2))) =>
                  match hex4 h1 h2 h3 h4 with
                  | None => None
                  | Some hi =>
                      let single :=
                        match scan_string rest2 with
                        | Some (body, tail) => Some (utf8 hi +:+ body, tail)
                        | None => None
                        end in
                      if N.leb 55296 hi && N.leb hi 56319 then
                        match rest2 with
                        | String b (String u rest3) =>
                            if Ascii.eqb b backslash && Ascii.eqb u "u" then
                              match rest3 with
                              | String l1 (String l2 (String l3 (String l4 rest4))) =>
                                  match hex4 l1 l2 l3 l4 with
                                  | None => None
                                  | Some lo =>
                                      if N.leb 56320 lo && N.leb lo 57343 then
                                        match scan_string rest4 with
                                        | Some (body, tail) =>
                                            Some (utf8 (65536 + (hi - 55296) * 1024 + (lo - 56320))%N
                                                  +:+ body, tail)
                                        | None => None
                                        end
                                      else single
                                  end
                              | _ => None
                              end
                            else single
                        | _ => single
                        end
                      else single
                  end
              | _ => None
              end
            else
              match simple_escape e with
              | None => None
              | Some c' =>
                  match scan_string rest1 with
                  | Some (body, tail) => Some (String c' body, tail)
                  | None => None
                  end
              end
        end
      else if N.ltb (N_of_ascii c) 32 then None
      else
        match scan_string rest with
        | Some (body, tail) => Some (String c body, tail)
        | None => None
        end
  end.

Definition digit_value (c : ascii) : option (Decimal.uint → Decimal.uint) :=
  match c with
  | "0" => Some Decimal.D0 | "1" => Some Decimal.D1 | "2" => Some Decimal.D2
  | "3" => Some Decimal.D3 | "4" => Some Decimal.D4 | "5" => Some Decimal.D5
  | "6" => Some Decimal.D6 | "7" => Some Decimal.D7 | "8" => Some Decimal.D8
  | "9" => Some Decimal.D9 | _ => None
  end%char.

(** The longest run of digits at the head of [s], and the rest. *)
Fixpoint span_digits (s : string) : Decimal.uint * string :=
  match s with
  | EmptyString => (Decimal.Nil, s)
  | String c s' =>
      match digit_value c with
      | Some d => let (ds, rest) := span_digits s' in (d ds, rest)
      | None => (Decimal.Nil, s)
      end
  end.

(** [0], or a digit from 1 to 9 and the digits after it. *)
Definition scan_natural (s : string) : option (N * string) :=
  match s with
  | String "0" rest => Some (0%N, rest)
  | _ =>
      match span_digits s with
      | (Decimal.Nil, _) => None
      | (ds, rest) => Some (N.of_uint ds, rest)
      end
  end.

Definition scan_int (s : string) : option (Z * string) :=
  match s with
  | String "-" rest =>
      match scan_natural rest with
      | Some (n, rest') => Some (Z.opp (Z.of_N n), rest')
      | None => None
      end
  | _ =>
      match scan_natural s with
      | Some (n, rest') => Some (Z.of_N n, rest')
      | None => None
      end
  end.

Fixpoint strip_prefix (p s : string) : option string :=
  match p, s with
  | EmptyString, _ => Some s
  | String a p', String b s' => if Ascii.eqb a b then strip_prefix p' s' else None
  | String _ _, EmptyString => None
  end.

Fixpoint dict_of_pairs (acc : list (string * value)) (kvs : list (string * value))
  : list (string * value) :=
  match kvs with
  | [] => acc
  | (k, v) :: kvs' => dict_of_pairs (dict_set k v acc) kvs'
  end.

(** The rest of [s] after the character [c], when [s] starts with it. *)
Definition expect (c : ascii) (s : string) : option string :=
  match s with
  | String c' s' => if Ascii.eqb c c' then Some s' else None
  | EmptyString => None
  end.

Fixpoint parse_value (fuel : nat) (s : string) {struct fuel} : option (value * string) :=
  match fuel with
  | O => None
  | S fuel' =>
      match s with
      | EmptyString => None
      | String c rest =>
          if Ascii.eqb c quote then
            match scan_string rest with
            | Some (body, tail) => Some (VStr body, tail)
            | None => None
            end
          else if Ascii.eqb c "[" then
            match expect "]" (skip_ws rest) with
            | Some tail => Some (VList [], tail)
            | None =>
                match parse_elements fuel' (skip_ws rest) with
                | Some (l, tail) => Some (VList l, tail)
                | None => None
                end
            end
          else if Ascii.eqb c "{" then
            match expect "}" (skip_ws rest) with
            | Some tail => Some (VDict [], tail)
            | None =>
                match parse_members fuel' (skip_ws rest) with
                | Some (kvs, tail) => Some (VDict (dict_of_pairs [] kvs), tail)
                | None => None
                end
            end
          else if Ascii.eqb c "n" then
            option_map (pair VNone) (strip_prefix "ull" rest)
          else if Ascii.eqb c "t" then
            option_map (pair (VBool true)) (strip_prefix "rue" rest)
          else if Ascii.eqb c "f" then
            option_map (pair (VBool false)) (strip_prefix "alse" rest)
          else
            match scan_int s with
            | Some (n, tail) => Some (VInt n, tail)
            | None => None
            end
      end
  end
with parse_elements (fuel : nat) (s : string) {struct fuel}
  : option (list value * string) :=
  match fuel with
  | O => None
  | S fuel' =>
      match parse_value fuel' s with
      | None => None
      | Some (v, rest) =>
          match expect "," (skip_ws rest) with
          | Some rest' =>
              match parse_elements fuel' (skip_ws rest') with
              | Some (l, tail) => Some (v :: l, tail)
              | None => None
              end
          | None =>
              match expect "]" (skip_ws rest) with
              | Some tail => Some ([v], tail)
              | None => None
              end
          end
      end
  end
with parse_members (fuel : nat) (s : string) {struct fuel}
  : option (list (string * value) * string) :=
  match fuel with
  | O => None
  | S fuel' =>
      match expect quote s with
      | None => None
      | Some rest =>
          match scan_string rest with
          | None => None
          | Some (k, rest1) =>
              match expect ":" (skip_ws rest1) with
              | None => None
              | Some rest2 =>
                  match parse_value fuel' (skip_ws rest2) with
                  | None => None
                  | Some (v, rest3) =>
                      match expect "," (skip_ws rest3) with
                      | Some rest4 =>
                          match parse_members fuel' (skip_ws rest4) with
                          | Some (kvs, tail) => Some ((k, v) :: kvs, tail)
                          | None => None
                          end
                      | None =>
                          match expect "}" (skip_ws rest3) with
                          | Some tail => Some ([(k, v)], tail)
                          | None => None
                          end
                      end
                  end
              end
          end
      end
  end.

(** *** What the round trip is stated with *)

Definition no_digit_head (s : string) : Prop :=
  match s with
  | EmptyString => True
  | String c _ => digit_value c = None
  end.

(** The characters a value can begin with are no white space and no
    punctuation of a list or a dictionary. *)
Definition starts_value (c : ascii) : bool :=
  negb (is_ws c) && negb (Ascii.eqb c "]") && negb (Ascii.eqb c "}")
  && negb (Ascii.eqb c ",") && negb (Ascii.eqb c ":").

Definition int_start (c : ascii) : bool :=
  Ascii.eqb c "-" || match digit_value c with Some _ => true | None => false end.

(** A value Python can hold: no dictionary has a key twice. *)
#[warnings="-register-all"] Inductive wf_value : value → Prop :=
  | wf_none : wf_value VNone
  | wf_bool b : wf_value (VBool b)
  | wf_int n : wf_value (VInt n)
  | wf_str s : wf_value (VStr s)
  | wf_list l : Forall wf_value l → wf_value (VList l)
  | wf_dict d :
      NoDup (map fst d) → Forall (λ kv, wf_value kv.2) d → wf_value (VDict d).

(** Fuel that is enough to read a value back. *)
Fixpoint need (v : value) : nat :=
  match v with
  | VList l => S (list_sum (map (λ x, S (need x)) l))
  | VDict d => S (list_sum (map (λ kv, match kv with (_, x) => S (need x) end) d))
  | _ => 1
  end.

Definition member_text (level : nat) (kv : string * value) : string :=
  match kv with
  | (k, x) => encode_string k +:+ ": " +:+ encode level x
  end.

Definition reads_back (v : value) : Prop :=
  ∀ level fuel rest,
    need v ≤ fuel → no_digit_head rest →
    parse_value fuel (encode level v +:+ rest) = Some (v, rest).

Definition loads (s : string) : result value :=
  match parse_value (S (String.length s)) (skip_ws s) with
  | Some (v, rest) =>
      match skip_ws rest with
      | EmptyString => Ok v
      | _ => Raise (Exn JSONDecodeError "Extra data")
      end
  | None => Raise (Exn JSONDecodeError "Expecting value")
  end.

Definition platform (home_dir : string) : Platform :=
  {| home := home_dir; json_dump := dumps; json_load := loads |}.

End PyJson.

(** ** A concrete host and stores, for running the development *)

Definition host : Platform := PyJson.platform "/home/user".

Definition quiet : syscall → option errno := λ _, None.


Definition groceries : Task := mkTask 1 "Buy groceries" false "2024-01-01T09:00:00".
Definition laundry : Task := mkTask 2 "Do laundry" false "2024-01-01T09:05:00".
Definition letters : Task := mkTask 4 "Post letters" true "2024-01-02T08:00:00".

Definition chores : Document := mkDocument [groceries; laundry; letters] 5.

(** The storage file holds [chores]. *)
Definition stocked_world : World :=
  mkWorld {[ @STORAGE_FILE host := PyJson.dumps (document_value chores) ]} [] quiet.

(** The storage file holds a text that is no JSON. *)
Definition broken_world : World :=
  mkWorld {[ @STORAGE_FILE host := "{not valid}" ]} [] quiet.

(** The storage file is there, and reading it is refused. *)
Definition locked_world : World :=
  mkWorld {[ @STORAGE_FILE host := PyJson.dumps (document_value chores) ]} []
          (λ c, match c with SysOpenRead _ => Some EACCES | _ => None end).

(** The disk is full after forty characters of the temporary file. *)
Definition full_world : World :=
  mkWorld {[ @STORAGE_FILE host := PyJson.dumps (document_value chores) ]} []
          (λ c, match c with
                | SysWrite _ offset => if Nat.leb 40 offset then Some ENOSPC else None
                | _ => None
                end).

(** No storage file yet, and no file can grow beyond 150 characters. *)
Definition cramped_world : World :=
  mkWorld ∅ []
          (λ c, match c with
                | SysWrite _ offset => if Nat.leb 150 offset then Some ENOSPC else None
                | _ => None
                end).

(** ** todo/__main__.py *)

(** [if x:] *)
Definition py_truthy (x : value) : bool :=
  match x with
  | VNone => false
  | VBool b => b
  | VInt n => negb (Z.eqb n 0)
  | VStr s => negb (String.eqb s "")
  | VList l => match l with [] => false | _ => true end
  | VDict d => match d with [] => false | _ => true end
  end.

(** [sep.join(words)] *)
Fixpoint join (sep : string) (words : list string) : string :=
  match words with
  | [] => ""
  | [word] => word
  | word :: rest => word +:+ sep +:+ join sep rest
  end.

(** The builtins of Python the command line calls: [int(s)] on a string,
    with [None] for [ValueError]; [s.lower()]; and [str(v)], which is how an
    f-string shows [v]. *)
Class Builtins : Type := {
  py_int : string → option Z;
  py_lower : string → string;
  py_str : value → string
}.

(** How a command ends: it returns, or [sys.exit(status)] ends the
    process ([SystemExit] passes every [except Exception]). *)
Inductive outcome (A : Type) : Type :=
  | Returned (a : A)
  | Exited (status : Z).
Arguments Returned {A} a.
Arguments Exited {A} status.

(** The exit status of the process when [main] ends with [o]. *)
Definition exit_status (o : outcome unit) : Z :=
  match o with
  | Returned _ => 0
  | Exited status => status
  end.

(** [str(e)], as an f-string shows an exception.  A [KeyError] shows its
    key between quotes; the keys the program looks up are plain words. *)
Definition exn_str (e : exn) : string :=
  match exn_cls e with
  | KeyError => "'" +:+ exn_msg e +:+ "'"
  | _ => exn_msg e
  end.

Definition dquote : string := String "034"%char "".
Definition line_break : string := String "010"%char "".

Section Cli.
Context `{Platform} `{Builtins}.

Definition sys_exit {A} (status : Z) : M (outcome A) := ret (Exited status).

Definition USAGE : string :=
  "Usage: python -m todo <command> [arguments]

Commands:
  add " +:+ dquote +:+ "description" +:+ dquote +:+ "    Add a new task
  list                 List all tasks
  done <id>            Mark task as complete
  delete <id>          Delete a task

Examples:
  python -m todo add " +:+ dquote +:+ "Buy groceries" +:+ dquote +:+ "
  python -m todo list
  python -m todo done 1
  python -m todo delete 2
".

Definition print_usage : M unit := print USAGE.

Definition format_task (task : value) : result string :=
  match getitem task "completed" with
  | Raise e => Raise e
  | Ok done =>
      let status := if py_truthy done then "✓" else " " in
      match getitem task "id" with
      | Raise e => Raise e
      | Ok i =>
          match getitem task "description" with
          | Raise e => Raise e
          | Ok text => Ok ("[" +:+ status +:+ "] " +:+ py_str i +:+ ". " +:+ py_str text)
          end
      end
  end.

(** The line [format_task] makes of a task of the data model. *)
Definition task_line (t : Task) : string :=
  "[" +:+ (if completed t then "✓" else " ") +:+ "] "
  +:+ py_str (VInt (id t)) +:+ ". " +:+ py_str (VStr (description t)).

(** The world [w] after the lines [out] have been printed. *)
Definition printed (out : list string) (w : World) : World :=
  mkWorld (files w) (stdout w ++ out) (fault w).

(** [now] is the time of the call, for [add_task]. *)
Definition cmd_add (now : string) (args : list string) : M (outcome unit) :=
  match args with
  | [] =>
      print "Error: Task description required" >>
      print ("Usage: python -m todo add " +:+ dquote +:+ "Task description" +:+ dquote) >>
      sys_exit 1
  | _ =>
      let description := join " " args in
      let! task := add_task description now in
      let! i := lift (getitem task "id") in
      let! text := lift (getitem task "description") in
      print ("Added task " +:+ py_str i +:+ ": " +:+ py_str text) >>
      ret (Returned tt)
  end.

(** [for task in tasks: print(format_task(task))] *)
Fixpoint print_tasks (elems : list value) : M unit :=
  match elems with
  | [] => ret tt
  | task :: rest =>
      let! line := lift (format_task task) in
      print line >>
      print_tasks rest
  end.

Definition cmd_list (args : list string) : M (outcome unit) :=
  let! tasks := list_tasks in
  if negb (py_truthy tasks) then
    print ("No tasks found. Add one with: python -m todo add "
           +:+ dquote +:+ "Task description" +:+ dquote) >>
    ret (Returned tt)
  else
    let! n := lift (py_len tasks) in
    print (line_break +:+ "You have " +:+ py_str (VInt (Z.of_nat n)) +:+ " task(s):"
           +:+ line_break) >>
    let! elems := lift (py_iter tasks) in
    print_tasks elems >>
    print "" >>
    ret (Returned tt).

Definition cmd_done (args : list string) : M (outcome unit) :=
  match args with
  | [] =>
      print "Error: Task ID required" >>
      print "Usage: python -m todo done <id>" >>
      sys_exit 1
  | arg :: _ =>
      match py_int arg with
      | None =>
          print ("Error: Invalid task ID '" +:+ arg +:+ "'. Must be a number.") >>
          sys_exit 1
      | Some task_id =>
          let! found := complete_task task_id in
          if found then
            print ("Marked task " +:+ py_str (VInt task_id) +:+ " as complete") >>
            ret (Returned tt)
          else
            print ("Error: Task " +:+ py_str (VInt task_id) +:+ " not found") >>
            sys_exit 1
      end
  end.

Definition cmd_delete (args : list string) : M (outcome unit) :=
  match args with
  | [] =>
      print "Error: Task ID required" >>
      print "Usage: python -m todo delete <id>" >>
      sys_exit 1
  | arg :: _ =>
      match py_int arg with
      | None =>
          print ("Error: Invalid task ID '" +:+ arg +:+ "'. Must be a number.") >>
          sys_exit 1
      | Some task_id =>
          let! found := delete_task task_id in
          if found then
            print ("Deleted task " +:+ py_str (VInt task_id)) >>
            ret (Returned tt)
          else
            print ("Error: Task " +:+ py_str (VInt task_id) +:+ " not found") >>
            sys_exit 1
      end
  end.

(** The table [commands] of [main]. *)
Definition commands (now : string) (command : string)
  : option (list string → M (outcome unit)) :=
  if String.eqb command "add" then Some (cmd_add now)
  else if String.eqb command "list" then Some cmd_list
  else if String.eqb command "done" then Some cmd_done
  else if String.eqb command "delete" then Some cmd_delete
  else None.

(** [argv] is [sys.argv]. *)
Definition main (now : string) (argv : list string) : M (outcome unit) :=
  match argv with
  | _ :: name :: args =>
      let command := py_lower name in
      match commands now command with
      | Some handler =>
          try_except (handler args)
            (λ e, print ("Error: " +:+ exn_str e) >> sys_exit 1)
      | None =>
          print ("Error: Unknown command '" +:+ command +:+ "'") >>
          print_usage >>
          sys_exit 1
      end
  | _ =>
      print_usage >>
      sys_exit 1
  end.

(** The arguments with which the handler of [command] calls the task
    manager. *)
Definition reaches_store (command : string) (args : list string) : Prop :=
  (command = "add" ∧ args ≠ []) ∨
  command = "list" ∨
  ((command = "done" ∨ command = "delete") ∧
   ∃ arg rest task_id, args = arg :: rest ∧ py_int arg = Some task_id).

End Cli.

(** [t'] is the task [t], but that it may have been completed since. *)
Definition same_text (t t' : Task) : Prop :=
  id t' = id t ∧ description t' = description t ∧ created_at t' = created_at t ∧
  (completed t = true → completed t' = true).

(** How a command can end: it returns, exits with status 1, or raises. *)
Definition tame (r : result (outcome unit)) : Prop :=
  match r with
  | Ok (Exited status) => status = 1%Z
  | _ => True
  end.

(** Builtins for running the development: [int] and [lower] on ASCII
    text, [str] on [None], booleans, integers and strings.  A list or a
    dictionary is shown as its JSON text, which is not what Python shows;
    nothing below formats one. *)
Module Ascii7.

Definition is_space (c : ascii) : bool :=
  let n := N_of_ascii c in
  (N.leb 9 n && N.leb n 13) || (N.leb 28 n && N.leb n 32).

Fixpoint lstrip (s : string) : string :=
  match s with
  | String c s' => if is_space c then lstrip s' else s
  | EmptyString => s
  end.

Definition strip (s : string) : string :=
  String.rev (lstrip (String.rev (lstrip s))).

Definition digit (c : ascii) : option Z :=
  let n := N_of_ascii c in
  if N.leb 48 n && N.leb n 57 then Some (Z.of_N n - 48)%Z else None.

(** Digits, with single underscores between them. *)
Fixpoint digits (acc : Z) (after_digit : bool) (s : string) : option Z :=
  match s with
  | EmptyString => if after_digit then Some acc else None
  | String c s' =>
      match digit c with
      | Some d => digits (10 * acc + d) true s'
      | None =>
          if Ascii.eqb c "_" && after_digit then digits acc false s' else None
      end
  end.

Definition int (s : string) : option Z :=
  match strip s with
  | String "-" s' => option_map Z.opp (digits 0 false s')
  | String "+" s' => digits 0 false s'
  | s' => digits 0 false s'
  end.

Definition lower_char (c : ascii) : ascii :=
  let n := N_of_ascii c in
  if N.leb 65 n && N.leb n 90 then ascii_of_N (n + 32) else c.

Fixpoint lower (s : string) : string :=
  match s with
  | EmptyString => ""
  | String c s' => String (lower_char c) (lower s')
  end.

Definition str (v : value) : string :=
  match v with
  | VNone => "None"
  | VBool b => if b then "True" else "False"
  | VInt n => PyJson.encode_int n
  | VStr s => s
  | _ => PyJson.dumps v
  end.

Definition builtins : Builtins :=
  {| py_int := int; py_lower := lower; py_str := str |}.

End Ascii7.

(** ** Stores that need not hold a document *)

Section OddStoreDefinitions.
Context `{Platform}.

(** The store loads as the value [data], without a warning. *)
Definition loads_value (w : World) (data : value) : Prop :=
  load_data w = (Ok data, w).

End OddStoreDefinitions.

(** ** More stores, for running the development *)



(** The storage file holds the tasks of [chores] and, after the second, an
    entry without an id. *)
Definition nameless : value := VDict [("description", VStr "no id")].

Definition ragged_world : World :=
  mkWorld {[ @STORAGE_FILE host :=
               PyJson.dumps
                 (VDict [("tasks",
                          VList [task_value groceries; task_value laundry;
                                 nameless; task_value letters]);
                         ("next_id", VInt 5)]) ]}
          [] quiet.

(** * Facts about the embedding *)

(** ** Strings, and the storage layer *)

Lemma append_cons c s t : String c s +:+ t = String c (s +:+ t).
Proof. reflexivity. Qed.

Lemma append_nil_l s : "" +:+ s = s.
Proof. reflexivity. Qed.

Lemma append_nil_r s : s +:+ "" = s.
Proof. induction s as [|c s IH]; [done|]. by rewrite append_cons, IH. Qed.

Lemma append_assoc s t u : (s +:+ t) +:+ u = s +:+ t +:+ u.
Proof. induction s as [|c s IH]; [done|]. by rewrite !append_cons, IH. Qed.

Lemma length_append s t :
  String.length (s +:+ t) = String.length s + String.length t.
Proof. induction s as [|c s IH]; [done|]. rewrite append_cons. simpl. by rewrite IH. Qed.

Lemma world_eta w : mkWorld (files w) (stdout w) (fault w) = w.
Proof. by destruct w. Qed.

Section StorageFacts.
Context `{Platform}.

Lemma temp_file_eq : temp_file = Path home ".todo.tmp".
Proof. reflexivity. Qed.

Lemma temp_file_ne : temp_file ≠ STORAGE_FILE.
Proof. discriminate. Qed.

Lemma set_files_set_files f g w :
  set_files f (set_files g w) = set_files (λ fs, f (g fs)) w.
Proof. reflexivity. Qed.

Lemma load_data_missing w :
  on_disk w = None → load_data w = (Ok _get_default_data, w).
Proof.
  unfold on_disk, load_data, bind, path_exists. intros ->. reflexivity.
Qed.

Lemma load_data_present w text :
  on_disk w = Some text →
  fault w (SysOpenRead STORAGE_FILE) = None →
  load_data w = accept text w.
Proof.
  unfold on_disk, load_data, accept, sys_read, syscall_gate, path_exists,
    try_except, lift, bind.
  intros Hf Hr. rewrite Hf. cbn. rewrite Hr, Hf.
  destruct (json_load text) as [v|e]; [|reflexivity].
  destruct v; try reflexivity.
  destruct (negb (dict_contains "tasks" d) || negb (dict_contains "next_id" d));
    reflexivity.
Qed.

Lemma first_fault_app w cs1 cs2 :
  first_fault w (cs1 ++ cs2) =
  match first_fault w cs1 with
  | Some e => Some e
  | None => first_fault w cs2
  end.
Proof.
  induction cs1 as [|c cs1 IH]; [done|]. simpl.
  destruct (fault w c); [done|apply IH].
Qed.

Lemma first_fault_ext w w' cs :
  fault w' = fault w → first_fault w' cs = first_fault w cs.
Proof. intros E. induction cs as [|c cs IH]; [done|]. simpl. by rewrite E, IH. Qed.

(** Writing a text character by character appends it to the file, up to
    the first write the system refuses. *)
Lemma write_all_spec p s : ∀ acc w,
  files w !! p = Some acc →
  ∃ r text',
    write_all p (chars s) w = (r, set_files (λ fs, <[p := text']> fs) w) ∧
    match first_fault w (map (SysWrite p) (seq (String.length acc) (String.length s))) with
    | None => r = Ok tt ∧ text' = acc +:+ s
    | Some e => r = Raise (os_exn e)
    end.
Proof.
  induction s as [|c s IH]; intros acc w Hacc.
  - exists (Ok tt), acc. simpl. split; [|by rewrite append_nil_r].
    unfold ret, set_files. rewrite insert_id by done. by rewrite world_eta.
  - simpl. unfold bind at 1. unfold sys_write at 1. rewrite Hacc. simpl.
    destruct (fault w (SysWrite p (String.length acc))) as [e|] eqn:He.
    { exists (Raise (os_exn e)), acc. split; [|done].
      unfold set_files. rewrite insert_id by done. by rewrite world_eta. }
    set (w1 := set_files (λ fs, <[p := acc +:+ String c ""]> fs) w).
    destruct (IH (acc +:+ String c "") w1) as (r & text' & Hrun & Hres).
    { unfold w1. simpl. apply lookup_insert_eq. }
    exists r, text'. rewrite Hrun. split.
    + unfold w1. rewrite set_files_set_files. f_equal.
      unfold set_files. f_equal. apply insert_insert_eq.
    + rewrite length_append in Hres. simpl in Hres.
      replace (String.length acc + 1) with (S (String.length acc)) in Hres by lia.
      rewrite (first_fault_ext w w1) in Hres by done.
      rewrite append_assoc in Hres. exact Hres.
Qed.

(** [save_data] in full: its result is decided by the first system call
    that fails; a save that returns has replaced the canonical file and
    left no temporary file, a save that raises has left the canonical
    file as it was. *)
Lemma save_data_spec data w :
  ∃ w',
    save_data data w =
      (match first_fault w (save_calls data) with
       | None => Ok tt
       | Some e => Raise (os_exn e)
       end, w') ∧
    fault w' = fault w ∧
    match first_fault w (save_calls data) with
    | None =>
        files w' = <[STORAGE_FILE := json_dump data]> (delete temp_file (files w)) ∧
        stdout w' = stdout w
    | Some e =>
        files w' = files w ∨ ∃ t, files w' = <[temp_file := t]> (files w)
    end.
Proof.
  unfold save_data, try_except, save_calls.
  change (with_suffix STORAGE_FILE ".tmp") with temp_file.
  unfold bind at 1. unfold sys_mkdir, syscall_gate at 1.
  change (first_fault w ([SysMkdir (parent STORAGE_FILE); SysOpenWrite temp_file] ++ ?l))
    with (match fault w (SysMkdir (parent STORAGE_FILE)) with
          | Some e => Some e
          | None => match fault w (SysOpenWrite temp_file) with
                    | Some e => Some e
                    | None => first_fault w l
                    end
          end).
  destruct (fault w (SysMkdir (parent STORAGE_FILE))) as [e|] eqn:Hmk.
  { destruct e; (eexists; split; [reflexivity|split; [done|by left]]). }
  unfold sys_open_w, syscall_gate. unfold bind at 1 2.
  destruct (fault w (SysOpenWrite temp_file)) as [e|] eqn:Hop.
  { destruct e; (eexists; split; [reflexivity|split; [done|by left]]). }
  set (w1 := set_files (λ fs, <[temp_file := ""]> fs) w).
  destruct (write_all_spec temp_file (json_dump data) "" w1) as (r & text' & Hrun & Hres).
  { apply lookup_insert_eq. }
  unfold bind at 1. rewrite Hrun. simpl in Hres. rewrite first_fault_app.
  rewrite (first_fault_ext w w1) in Hres by done.
  destruct (first_fault w (map (SysWrite temp_file) (seq 0 (String.length (json_dump data)))))
    as [e|] eqn:Hwr.
  { subst r.
    destruct e; (eexists; split; [reflexivity|split; [done|]]);
      right; exists text'; simpl; apply insert_insert_eq. }
  destruct Hres as [-> ->]. rewrite append_nil_l.
  unfold sys_replace, syscall_gate, bind. simpl.
  destruct (fault w (SysReplace temp_file STORAGE_FILE)) as [e|] eqn:Hrp.
  { destruct e; (eexists; split; [reflexivity|split; [done|]]);
      right; exists (json_dump data); simpl; apply insert_insert_eq. }
  unfold w1, set_files; simpl. rewrite lookup_insert_eq. eexists. split; [reflexivity|]. split; [done|].
  split; [|done]. simpl. by rewrite !delete_insert_eq.
Qed.

(** An object with both keys is returned as it is: [load_data] does not
    look at what the keys hold. *)
Lemma load_data_object w text d :
  on_disk w = Some text →
  fault w (SysOpenRead STORAGE_FILE) = None →
  json_load text = Ok (VDict d) →
  dict_contains "tasks" d = true → dict_contains "next_id" d = true →
  load_data w = (Ok (VDict d), w).
Proof.
  intros Hd Hr Hj Ht Hn. rewrite (load_data_present w text Hd Hr).
  unfold accept. by rewrite Hj, Ht, Hn.
Qed.

Lemma load_data_read_fault w text e :
  on_disk w = Some text →
  fault w (SysOpenRead STORAGE_FILE) = Some e →
  ∃ msg, load_data w =
         (Raise (os_exn e), mkWorld (files w) (stdout w ++ [msg]) (fault w)).
Proof.
  unfold on_disk, load_data, sys_read, syscall_gate, path_exists,
    try_except, lift, bind.
  intros Hf Hr. rewrite Hf. cbn. rewrite Hr.
  destruct e; eexists; reflexivity.
Qed.

(** [load_data] writes no file: it can only print. *)
Lemma load_data_frame w :
  ∃ msgs, (load_data w).2 = mkWorld (files w) (stdout w ++ msgs) (fault w).
Proof.
  destruct (on_disk w) as [text|] eqn:Hf.
  2:{ rewrite load_data_missing by done. exists []. simpl.
      by rewrite app_nil_r, world_eta. }
  destruct (fault w (SysOpenRead STORAGE_FILE)) as [e|] eqn:Hr.
  { destruct (load_data_read_fault w text e Hf Hr) as [msg ->]. by exists [msg]. }
  rewrite (load_data_present w text) by done. unfold accept.
  assert (∀ a : value, ∃ msgs,
             (ret a w).2 = mkWorld (files w) (stdout w ++ msgs) (fault w)) as Hret.
  { intros a. exists []. simpl. by rewrite app_nil_r, world_eta. }
  destruct (json_load text) as [v|e].
  - destruct v; try (eexists; reflexivity).
    destruct (negb (dict_contains "tasks" d) || negb (dict_contains "next_id" d));
      [eexists; reflexivity|apply Hret].
  - destruct (exn_cls e); eexists; reflexivity.
Qed.

Lemma load_data_loads w d :
  loads w d →
  ∃ w1, load_data w = (Ok (document_value d), w1) ∧
        files w1 = files w ∧ fault w1 = fault w.
Proof.
  unfold loads. intros Hl. destruct (load_data_frame w) as [msgs Hw].
  destruct (load_data w) as [r w1]. simpl in *. subst r w1.
  eexists. split; [reflexivity|]. done.
Qed.

Lemma first_fault_free w cs : fault_free w → first_fault w cs = None.
Proof. intros Hff. induction cs as [|c cs IH]; [done|]. simpl. by rewrite Hff. Qed.

(** A save in a world where no system call fails. *)
Lemma save_data_ok data w :
  fault_free w →
  ∃ w', save_data data w = (Ok tt, w') ∧
        files w' = <[STORAGE_FILE := json_dump data]> (delete temp_file (files w)) ∧
        stdout w' = stdout w ∧ fault w' = fault w.
Proof.
  intros Hff. destruct (save_data_spec data w) as (w' & Hrun & Hfault & Hres).
  rewrite (first_fault_free w _ Hff) in Hrun, Hres.
  destruct Hres as [Hfs Hout]. by exists w'.
Qed.
End StorageFacts.

(** ** The loops of the task manager on a document of the data model *)

Section CoreFacts.
Context `{Platform}.

Lemma get_scan_tasks task_id ts :
  get_scan task_id (map task_value ts)
  = Ok (option_map task_value (List.find (has_id task_id) ts)).
Proof.
  induction ts as [|t ts IH]; [reflexivity|]. simpl.
  change (id t =? task_id)%Z with (has_id task_id t).
  destruct (has_id task_id t); [done|apply IH].
Qed.

Lemma keep_others_tasks task_id ts :
  keep_others task_id (map task_value ts)
  = Ok (map task_value (without_id task_id ts)).
Proof.
  induction ts as [|t ts IH]; [reflexivity|]. simpl. rewrite IH.
  change (id t =? task_id)%Z with (has_id task_id t).
  by destruct (has_id task_id t).
Qed.

Lemma complete_scan_tasks data task_id ts : ∀ seen w,
  complete_scan data task_id (map task_value seen) (map task_value ts) w =
  match complete_first task_id ts with
  | Some ts' =>
      (let! data := lift (setitem data "tasks" (VList (map task_value (seen ++ ts')))) in
       save_data data >> ret true) w
  | None => (Ok false, w)
  end.
Proof.
  induction ts as [|t ts IH]; intros seen w; [reflexivity|]. simpl.
  unfold bind at 1. unfold lift at 1. simpl. unfold has_id.
  destruct (id t =? task_id)%Z.
  - by rewrite map_app.
  - change (map task_value seen ++ [task_value t]) with
      (map task_value seen ++ map task_value [t]).
    rewrite <- map_app, IH.
    destruct (complete_first task_id ts) as [ts'|]; [|done]. simpl.
    by rewrite <- app_assoc.
Qed.

Lemma complete_first_Some task_id ts ts' :
  complete_first task_id ts = Some ts' ↔
  ∃ l1 t l2, ts = l1 ++ t :: l2 ∧ id t = task_id ∧
             Forall (λ u, id u ≠ task_id) l1 ∧
             ts' = l1 ++ mark_completed t :: l2.
Proof.
  revert ts'. induction ts as [|u ts IH]; intros ts'; simpl.
  - split; [done|]. intros (l1 & t & l2 & E & _). by destruct l1.
  - unfold has_id at 1. destruct (Z.eqb_spec (id u) task_id) as [E|NE].
    + split.
      * intros [= <-]. exists [], u, ts. by repeat split.
      * intros (l1 & t & l2 & Ets & Et & Hl1 & ->).
        destruct l1 as [|v l1]; simplify_eq/=; [done|].
        by apply Forall_cons in Hl1 as [? _].
    + destruct (complete_first task_id ts) as [ts0|]; simpl.
      * split.
        -- intros [= <-]. destruct (proj1 (IH ts0) eq_refl) as (l1 & t & l2 & -> & Et & Hl1 & ->).
           exists (u :: l1), t, l2. repeat split; [done|by constructor].
        -- intros (l1 & t & l2 & Ets & Et & Hl1 & ->).
           destruct l1 as [|v l1]; simplify_eq/=.
           apply Forall_cons in Hl1 as [_ Hl1]. f_equal. f_equal.
           assert (Some ts0 = Some (l1 ++ mark_completed t :: l2)) as [= ->]; [|done].
           apply IH. by exists l1, t, l2.
      * split; [done|].
        intros (l1 & t & l2 & Ets & Et & Hl1 & ->).
        destruct l1 as [|v l1]; simplify_eq/=.
        apply Forall_cons in Hl1 as [_ Hl1].
        assert (None = Some (l1 ++ mark_completed t :: l2)); [|done].
        apply IH. by exists l1, t, l2.
Qed.

End CoreFacts.

(** ** The operations where no system call fails *)

Section TaskManagerFacts.
Context `{Platform}.

Lemma without_id_length task_id ts :
  length (without_id task_id ts) ≤ length ts.
Proof. apply filter_length_le. Qed.

Lemma without_id_same task_id ts :
  ¬ length (without_id task_id ts) < length ts → without_id task_id ts = ts.
Proof.
  unfold without_id. induction ts as [|t ts IH]; [done|]. simpl.
  destruct (negb (has_id task_id t)); simpl; intros Hlen.
  - f_equal. apply IH. lia.
  - pose proof (List.filter_length_le (λ t, negb (has_id task_id t)) ts). lia.
Qed.

Lemma saved_on_disk d w w' :
  saved d w w' → on_disk w' = Some (json_dump (document_value d)).
Proof. intros [Hfs _]. unfold on_disk. rewrite Hfs. apply lookup_insert_eq. Qed.

Lemma save_after_load v d w w1 :
  fault_free w → files w1 = files w → fault w1 = fault w →
  v = document_value d →
  ∃ w', save_data v w1 = (Ok tt, w') ∧ saved d w w'.
Proof.
  intros Hff Hfiles Hfault ->.
  assert (fault_free w1) as Hff1 by (intros c; by rewrite Hfault).
  destruct (save_data_ok (document_value d) w1 Hff1) as (w2 & Hsave & Hfs & _ & Hfault2).
  exists w2. split; [done|]. split; congruence.
Qed.

Lemma add_task_run description now d w :
  fault_free w →
  loads w d →
  let t := mkTask (next_id d) description false now in
  ∃ w', add_task description now w = (Ok (task_value t), w') ∧
        saved (mkDocument (tasks d ++ [t]) (next_id d + 1)) w w'.
Proof.
  intros Hff Hl t.
  destruct (load_data_loads w d Hl) as (w1 & Hload & Hfiles & Hfault).
  unfold add_task, bind. rewrite Hload. simpl.
  edestruct (save_after_load) as (w2 & -> & Hsaved); [done..| |by exists w2].
  unfold document_value. simpl. by rewrite map_app.
Qed.

Lemma complete_task_run task_id d w :
  fault_free w →
  loads w d →
  match complete_first task_id (tasks d) with
  | Some ts' =>
      ∃ w', complete_task task_id w = (Ok true, w') ∧
            saved (mkDocument ts' (next_id d)) w w'
  | None => ∃ w', complete_task task_id w = (Ok false, w') ∧ untouched w w'
  end.
Proof.
  intros Hff Hl.
  destruct (load_data_loads w d Hl) as (w1 & Hload & Hfiles & Hfault).
  unfold complete_task, bind. rewrite Hload. simpl.
  rewrite (complete_scan_tasks _ task_id (tasks d) [] w1).
  destruct (complete_first task_id (tasks d)) as [ts'|].
  - unfold bind, lift. simpl.
    edestruct (save_after_load) as (w2 & -> & Hsaved); [done..| |by exists w2].
    reflexivity.
  - by exists w1.
Qed.

Lemma delete_task_run task_id d w :
  fault_free w →
  loads w d →
  if decide (length (without_id task_id (tasks d)) < length (tasks d))
  then ∃ w', delete_task task_id w = (Ok true, w') ∧
             saved (mkDocument (without_id task_id (tasks d)) (next_id d)) w w'
  else ∃ w', delete_task task_id w = (Ok false, w') ∧ untouched w w'.
Proof.
  intros Hff Hl.
  destruct (load_data_loads w d Hl) as (w1 & Hload & Hfiles & Hfault).
  unfold delete_task, bind. rewrite Hload. simpl.
  rewrite keep_others_tasks. simpl. rewrite !length_map.
  case_decide as Hlt.
  - apply Nat.ltb_lt in Hlt. rewrite Hlt.
    edestruct (save_after_load) as (w2 & -> & Hsaved); [done..| |by exists w2].
    reflexivity.
  - apply Nat.ltb_nlt in Hlt. rewrite Hlt. by exists w1.
Qed.

Lemma get_task_run task_id d w :
  loads w d →
  ∃ w', get_task task_id w =
          (Ok (option_map task_value (List.find (has_id task_id) (tasks d))), w') ∧
        untouched w w'.
Proof.
  intros Hl.
  destruct (load_data_loads w d Hl) as (w1 & Hload & Hfiles & Hfault).
  unfold get_task, bind. rewrite Hload. simpl.
  rewrite get_scan_tasks. by exists w1.
Qed.

Lemma list_tasks_run d w :
  loads w d →
  ∃ w', list_tasks w = (Ok (VList (map task_value (tasks d))), w') ∧ untouched w w'.
Proof.
  intros Hl.
  destruct (load_data_loads w d Hl) as (w1 & Hload & Hfiles & Hfault).
  unfold list_tasks, bind. rewrite Hload. by exists w1.
Qed.
End TaskManagerFacts.

(** ** Runs where no system call fails *)

Section RunFacts.
Context `{Platform}.

Lemma accept_fst text w w' : (accept text w).1 = (accept text w').1.
Proof.
  unfold accept. destruct (json_load text) as [v|e].
  - destruct v; try reflexivity.
    by destruct (negb (dict_contains "tasks" d) || negb (dict_contains "next_id" d)).
  - by destruct (exn_cls e).
Qed.

(** What [load_data] returns depends on the files and on the system, not
    on what has been printed. *)
Lemma load_data_ext w w' :
  untouched w w' → (load_data w').1 = (load_data w).1.
Proof.
  intros [Hfs Hft].
  assert (on_disk w' = on_disk w) as Hd by (unfold on_disk; by rewrite Hfs).
  destruct (on_disk w) as [text|] eqn:Hf.
  2:{ by rewrite !load_data_missing. }
  destruct (fault w (SysOpenRead STORAGE_FILE)) as [e|] eqn:Hr.
  - destruct (load_data_read_fault w text e Hf Hr) as [msg ->].
    rewrite <- Hft in Hr.
    by destruct (load_data_read_fault w' text e Hd Hr) as [msg' ->].
  - rewrite (load_data_present w text), (load_data_present w' text); try done.
    + apply accept_fst.
    + by rewrite Hft.
Qed.

Lemma untouched_loads d w w' : untouched w w' → loads w d → loads w' d.
Proof. unfold loads. intros Hu <-. by apply load_data_ext. Qed.

Lemma untouched_fault_free w w' : fault w' = fault w → fault_free w → fault_free w'.
Proof. intros E Hff c. by rewrite E. Qed.

Lemma saved_loads d w w' :
  round_trips d → fault_free w → saved d w w' → loads w' d.
Proof.
  intros Hrt Hff Hs. pose proof (saved_on_disk d w w' Hs) as Hd.
  destruct Hs as [_ Hft].
  unfold loads. rewrite (load_data_present w' _ Hd) by (by rewrite Hft).
  unfold accept. rewrite Hrt. reflexivity.
Qed.

Lemma run_command_step c d w :
  (∀ d', round_trips d') → fault_free w → loads w d →
  ∃ w', run_command c w = (Ok (answer c d), w') ∧
        loads w' (apply_command c d) ∧ fault_free w'.
Proof.
  intros Hrt Hff Hl. destruct c as [description now|task_id|task_id]; simpl.
  - destruct (add_task_run description now d w Hff Hl) as (w' & Hrun & Hs).
    exists w'. split; [done|]. split.
    + by eapply saved_loads.
    + by eapply untouched_fault_free; [apply Hs|].
  - pose proof (complete_task_run task_id d w Hff Hl) as Hc.
    unfold bind. destruct (complete_first task_id (tasks d)) as [ts'|].
    + destruct Hc as (w' & -> & Hs). exists w'. split; [done|]. split.
      * by eapply saved_loads.
      * by eapply untouched_fault_free; [apply Hs|].
    + destruct Hc as (w' & -> & Hu). exists w'. split; [done|]. split.
      * by eapply untouched_loads.
      * by eapply untouched_fault_free; [apply Hu|].
  - pose proof (delete_task_run task_id d w Hff Hl) as Hc.
    unfold bind. case_decide as Hlt.
    + destruct Hc as (w' & -> & Hs). exists w'.
      rewrite bool_decide_eq_true_2 by done. split; [done|]. split.
      * by eapply saved_loads.
      * by eapply untouched_fault_free; [apply Hs|].
    + destruct Hc as (w' & -> & Hu). exists w'.
      rewrite bool_decide_eq_false_2 by done. split; [done|]. split.
      * rewrite without_id_same by done. destruct d. by eapply untouched_loads.
      * by eapply untouched_fault_free; [apply Hu|].
Qed.


Lemma apply_commands_app cs1 cs2 d :
  apply_commands (cs1 ++ cs2) d = apply_commands cs2 (apply_commands cs1 d).
Proof. revert d. induction cs1 as [|c cs1 IH]; intros d; [done|]. apply IH. Qed.

Lemma complete_first_ids task_id ts ts' :
  complete_first task_id ts = Some ts' → map id ts' = map id ts.
Proof.
  revert ts'. induction ts as [|t ts IH]; intros ts'; simpl; [done|].
  destruct (has_id task_id t).
  - by intros [= <-].
  - destruct (complete_first task_id ts) as [ts0|]; simpl; [|done].
    intros [= <-]. simpl. f_equal. by apply IH.
Qed.

Lemma ids_ok_alt d :
  ids_ok d ↔ NoDup (map id (tasks d)) ∧ Forall (λ i, (i < next_id d)%Z) (map id (tasks d)).
Proof. unfold ids_ok. by rewrite Forall_map. Qed.

Lemma without_id_sublist task_id ts : without_id task_id ts `sublist_of` ts.
Proof.
  unfold without_id. induction ts as [|t ts IH]; simpl; [constructor|].
  destruct (negb (has_id task_id t)); by constructor.
Qed.

Lemma sublist_map {A B} (f : A → B) (l k : list A) :
  l `sublist_of` k → map f l `sublist_of` map f k.
Proof. induction 1; simpl; by constructor. Qed.

Lemma apply_command_ids_ok c d : ids_ok d → ids_ok (apply_command c d).
Proof.
  rewrite !ids_ok_alt. intros [Hnd Hlt].
  destruct c as [description now|task_id|task_id]; simpl.
  - rewrite map_app. simpl. split.
    + apply NoDup_app. split; [done|]. split; [|apply NoDup_singleton].
      intros i Hi ->%list_elem_of_singleton.
      rewrite Forall_forall in Hlt. specialize (Hlt _ Hi). lia.
    + apply Forall_app. split.
      * eapply Forall_impl; [exact Hlt|]. simpl. lia.
      * constructor; [lia|constructor].
  - destruct (complete_first task_id (tasks d)) as [ts'|] eqn:E; [|done].
    simpl. by rewrite (complete_first_ids _ _ _ E).
  - pose proof (sublist_map id _ _ (without_id_sublist task_id (tasks d))) as Hsub.
    split.
    + by eapply sublist_NoDup.
    + rewrite Forall_forall in Hlt |- *. intros i Hi.
      by apply Hlt, (sublist_subseteq _ _ Hsub).
Qed.

Lemma apply_command_next_id c d : (next_id d ≤ next_id (apply_command c d))%Z.
Proof.
  destruct c as [description now|task_id|task_id]; simpl; [lia| |lia].
  destruct (complete_first task_id (tasks d)); simpl; lia.
Qed.

Lemma apply_commands_ids_ok cs : ∀ d, ids_ok d → ids_ok (apply_commands cs d).
Proof.
  induction cs as [|c cs IH]; intros d Hd; [done|].
  simpl. by apply IH, apply_command_ids_ok.
Qed.

Lemma default_ids_ok : ids_ok default_document.
Proof. split; constructor. Qed.
End RunFacts.

(** ** Invocations and runs under any failures *)

Section Outcomes.
Context `{Platform}.

Lemma holds_on_disk w w' d : on_disk w' = on_disk w → holds w d → holds w' d.
Proof.
  unfold holds. intros ->. destruct (on_disk w) as [text|]; [|done].
  by rewrite (accept_fst text w' w).
Qed.

Lemma holds_written d w :
  round_trips d → on_disk w = Some (json_dump (document_value d)) → holds w d.
Proof. unfold holds. intros Hrt ->. unfold accept. by rewrite Hrt. Qed.

Lemma loads_holds w d : loads w d → holds w d.
Proof.
  unfold loads, holds. intros Hl. destruct (on_disk w) as [text|] eqn:Hd.
  - destruct (fault w (SysOpenRead STORAGE_FILE)) as [e|] eqn:Hr.
    + by destruct (load_data_read_fault w text e Hd Hr) as [msg Hraise]; rewrite Hraise in Hl.
    + by rewrite (load_data_present w text Hd Hr) in Hl.
  - rewrite (load_data_missing w Hd) in Hl. simpl in Hl.
    destruct d as [ts n]. unfold _get_default_data, document_value in Hl. simpl in Hl.
    injection Hl as Hts Hn. destruct ts; [by subst|done].
Qed.

(** A store that holds [d] gives [d] to a load, unless the system
    refuses the read; then the load raises and nothing is written. *)
Lemma holds_cases w d :
  holds w d →
  loads w d ∨
  ∃ e w1, load_data w = (Raise e, w1) ∧ files w1 = files w ∧ fault w1 = fault w.
Proof.
  unfold holds, loads. intros Hh. destruct (on_disk w) as [text|] eqn:Hd.
  - destruct (fault w (SysOpenRead STORAGE_FILE)) as [e|] eqn:Hr.
    + right. destruct (load_data_read_fault w text e Hd Hr) as [msg ->]. by eexists _, _.
    + left. by rewrite (load_data_present w text Hd Hr).
  - left. subst d. by rewrite (load_data_missing w Hd).
Qed.

(** The save that ends an operation either fails, and the store is as it
    was, or returns, and the store holds the new document. *)
Lemma save_then_ret {A} (a : A) d w :
  round_trips d →
  ∃ r w', (save_data (document_value d) >> ret a) w = (r, w') ∧
          fault w' = fault w ∧
          ((∃ e, r = Raise e) ∧ on_disk w' = on_disk w ∨ r = Ok a ∧ holds w' d).
Proof.
  intros Hrt. unfold bind.
  destruct (save_data_spec (document_value d) w) as (w' & -> & Hft & Hres).
  destruct (first_fault w (save_calls (document_value d))) as [e|].
  - exists (Raise (os_exn e)), w'. split; [done|]. split; [done|]. left.
    split; [by eexists|]. unfold on_disk.
    destruct Hres as [->|[t ->]]; [done|]. apply lookup_insert_ne, temp_file_ne.
  - exists (Ok a), w'. split; [done|]. split; [done|]. right. split; [done|].
    apply holds_written; [done|]. unfold on_disk. destruct Hres as [-> _].
    apply lookup_insert_eq.
Qed.

Lemma add_task_after_load description now d w w1 :
  load_data w = (Ok (document_value d), w1) →
  add_task description now w =
  (save_data (document_value (apply_command (Add description now) d)) >>
   ret (answer (Add description now) d)) w1.
Proof.
  intros Hload. unfold add_task, bind. rewrite Hload. simpl.
  unfold document_value. simpl. by rewrite map_app.
Qed.

Lemma complete_task_after_load task_id d w w1 :
  load_data w = (Ok (document_value d), w1) →
  complete_task task_id w =
  match complete_first task_id (tasks d) with
  | Some ts' => (save_data (document_value (mkDocument ts' (next_id d))) >> ret true) w1
  | None => (Ok false, w1)
  end.
Proof.
  intros Hload. unfold complete_task, bind. rewrite Hload. simpl.
  rewrite (complete_scan_tasks _ task_id (tasks d) [] w1).
  by destruct (complete_first task_id (tasks d)).
Qed.

Lemma delete_task_after_load task_id d w w1 :
  load_data w = (Ok (document_value d), w1) →
  delete_task task_id w =
  if decide (length (without_id task_id (tasks d)) < length (tasks d))
  then (save_data (document_value (mkDocument (without_id task_id (tasks d)) (next_id d)))
        >> ret true) w1
  else (Ok false, w1).
Proof.
  intros Hload. unfold delete_task, bind. rewrite Hload. simpl.
  rewrite keep_others_tasks. simpl. rewrite !length_map.
  case_decide as Hlt.
  - apply Nat.ltb_lt in Hlt. by rewrite Hlt.
  - apply Nat.ltb_nlt in Hlt. by rewrite Hlt.
Qed.

(** One invocation on a store that holds [d]: it raises and the store
    still holds [d], or it answers as the data model says and the store
    holds the document the data model says. *)
Lemma command_outcome c d w :
  (∀ d', round_trips d') → holds w d →
  ∃ r w', run_command c w = (r, w') ∧ fault w' = fault w ∧
          ((∃ e, r = Raise e) ∧ holds w' d ∨
           r = Ok (answer c d) ∧ holds w' (apply_command c d)).
Proof.
  intros Hrt Hh. destruct (holds_cases w d Hh) as [Hl|(e & w1 & Hraise & Hfs & Hft)].
  2:{ assert (holds w1 d) as Hh1.
      { eapply holds_on_disk; [|exact Hh]. unfold on_disk. by rewrite Hfs. }
      exists (Raise e), w1. split; [|split; [done|left; split; [by eexists|done]]].
      destruct c; simpl; unfold add_task, complete_task, delete_task, bind;
        by rewrite Hraise. }
  destruct (load_data_loads w d Hl) as (w1 & Hload & Hfs & Hft).
  assert (holds w1 d) as Hh1.
  { eapply holds_on_disk; [|exact Hh]. unfold on_disk. by rewrite Hfs. }
  destruct c as [description now|task_id|task_id]; simpl.
  - rewrite (add_task_after_load description now d w w1 Hload).
    destruct (save_then_ret (answer (Add description now) d)
                (apply_command (Add description now) d) w1 (Hrt _))
      as (r & w' & -> & Hft' & Hres).
    exists r, w'. split; [done|]. split; [congruence|].
    destruct Hres as [[He Hd]|[-> Hd]]; [left|right]; [|done].
    split; [done|]. by eapply holds_on_disk.
  - unfold bind at 1. rewrite (complete_task_after_load task_id d w w1 Hload).
    destruct (complete_first task_id (tasks d)) as [ts'|].
    + destruct (save_then_ret true (mkDocument ts' (next_id d)) w1 (Hrt _))
        as (r & w' & -> & Hft' & Hres).
      destruct Hres as [[[e ->] Hd]|[-> Hd]].
      * exists (Raise e), w'. split; [done|]. split; [congruence|]. left.
        split; [by eexists|]. by eapply holds_on_disk.
      * exists (Ok (VBool true)), w'. split; [done|]. split; [congruence|]. by right.
    + exists (Ok (VBool false)), w1. split; [done|]. split; [done|]. by right.
  - unfold bind at 1. rewrite (delete_task_after_load task_id d w w1 Hload).
    case_decide as Hlt.
    + destruct (save_then_ret true (mkDocument (without_id task_id (tasks d)) (next_id d))
                  w1 (Hrt _)) as (r & w' & -> & Hft' & Hres).
      destruct Hres as [[[e ->] Hd]|[-> Hd]].
      * exists (Raise e), w'. split; [done|]. split; [congruence|]. left.
        split; [by eexists|]. by eapply holds_on_disk.
      * exists (Ok (VBool true)), w'. split; [done|]. split; [congruence|]. right.
        by rewrite bool_decide_eq_true_2.
    + exists (Ok (VBool false)), w1. split; [done|]. split; [done|]. right.
      rewrite bool_decide_eq_false_2 by done. split; [done|].
      rewrite without_id_same by done. by destruct d.
Qed.

(** Every state a run reaches holds the document some shorter list of
    its invocations makes of the first one: the invocations that
    raised dropped out. *)
Lemma run_holds cs : ∀ d w,
  (∀ d', round_trips d') → holds w d →
  ∃ cs', cs' `sublist_of` cs ∧ holds (run cs w).2 (apply_commands cs' d).
Proof.
  induction cs as [|c cs IH]; intros d w Hrt Hh; simpl.
  - by exists [].
  - destruct (command_outcome c d w Hrt Hh) as (r & w1 & -> & _ & Hres).
    destruct Hres as [[_ Hh1]|[_ Hh1]].
    + destruct (IH d w1 Hrt Hh1) as (cs' & Hsub & Hh2).
      exists cs'. destruct (run cs w1). split; [by constructor|done].
    + destruct (IH _ w1 Hrt Hh1) as (cs' & Hsub & Hh2).
      exists (c :: cs'). destruct (run cs w1). split; [by constructor|done].
Qed.
End Outcomes.

(** ** Presence of an id, ids of a run *)

Section Presence.
Context `{Platform}.

Lemma find_complete_first task_id ts :
  is_Some (List.find (has_id task_id) ts) ↔ is_Some (complete_first task_id ts).
Proof.
  induction ts as [|t ts IH]; simpl.
  - split; by intros [? ?].
  - destruct (has_id task_id t); [by split; eauto|].
    rewrite IH. destruct (complete_first task_id ts); simpl; split; intros [? ?]; eauto; done.
Qed.


Lemma run_app cs1 cs2 w :
  run (cs1 ++ cs2) w = ((run cs1 w).1 ++ (run cs2 (run cs1 w).2).1, (run cs2 (run cs1 w).2).2).
Proof.
  revert w. induction cs1 as [|c cs1 IH]; intros w; simpl.
  - by destruct (run cs2 w).
  - destruct (run_command c w) as [r w1]. rewrite IH.
    destruct (run cs1 w1) as [rs w2]. simpl. by destruct (run cs2 w2).
Qed.

End Presence.

(** ** A save, step by step *)

Section SaveSteps.
Context `{Platform}.

Lemma writing_insert w w' t :
  writing w w' → writing w (set_files (λ fs, <[temp_file := t]> fs) w').
Proof.
  intros [Hft Hfs]. split; [done|]. right. exists t. simpl.
  destruct Hfs as [->|[t' ->]]; [done|]. apply insert_insert_eq.
Qed.

Lemma sys_mkdir_keeps w d : keeps_writing w (sys_mkdir d).
Proof.
  intros w' Hw. unfold sys_mkdir, syscall_gate. by destruct (fault w' (SysMkdir d)).
Qed.

Lemma sys_open_w_keeps w : keeps_writing w (sys_open_w temp_file).
Proof.
  intros w' Hw. unfold sys_open_w, syscall_gate, bind.
  destruct (fault w' (SysOpenWrite temp_file)); [done|]. by apply writing_insert.
Qed.

Lemma sys_write_keeps w c : keeps_writing w (sys_write temp_file c).
Proof.
  intros w' Hw. unfold sys_write.
  destruct (fault w' _); [done|]. by apply writing_insert.
Qed.

Lemma run_steps_keeps w steps :
  Forall (keeps_writing w) steps → keeps_writing w (run_steps steps).
Proof.
  induction 1 as [|s steps Hs _ IH]; intros w' Hw; [done|].
  simpl. unfold bind. specialize (Hs w' Hw).
  destruct (s w') as [[[]|e] w1]; simpl in *; [by apply IH|done].
Qed.

Lemma run_steps_app steps1 steps2 w :
  run_steps (steps1 ++ steps2) w = (run_steps steps1 >> run_steps steps2) w.
Proof.
  revert w. induction steps1 as [|s steps1 IH]; intros w; [done|].
  simpl. unfold bind. destruct (s w) as [[[]|e] w1]; [|done].
  rewrite IH. reflexivity.
Qed.

Lemma run_steps_writes p pieces w :
  run_steps (map (sys_write p) pieces) w = write_all p pieces w.
Proof.
  revert w. induction pieces as [|c pieces IH]; intros w; [done|].
  simpl. unfold bind. destruct (sys_write p c w) as [[[]|e] w1]; [apply IH|done].
Qed.

Lemma run_steps_one s w : run_steps [s] w = s w.
Proof. simpl. unfold bind, ret. by destruct (s w) as [[[]|e] w1]. Qed.

(** [save_data] is its steps, run under its handlers, which only print. *)
Lemma save_data_steps data w :
  ∃ msgs,
    save_data data w =
    ((run_steps (save_steps data) w).1,
     mkWorld (files (run_steps (save_steps data) w).2)
             (stdout (run_steps (save_steps data) w).2 ++ msgs)
             (fault (run_steps (save_steps data) w).2)).
Proof.
  assert (run_steps (save_steps data) w =
          (sys_mkdir (parent STORAGE_FILE) >>
           sys_open_w temp_file >>
           write_all temp_file (chars (json_dump data)) >>
           sys_replace temp_file STORAGE_FILE) w) as ->.
  { unfold save_steps. simpl. unfold bind.
    destruct (sys_mkdir _ w) as [[[]|e] w1]; [|done].
    destruct (sys_open_w _ w1) as [[[]|e] w2]; [|done].
    rewrite run_steps_app. unfold bind. rewrite run_steps_writes.
    destruct (write_all _ _ w2) as [[[]|e] w3]; [|done].
    apply run_steps_one. }
  unfold save_data, try_except. change (with_suffix STORAGE_FILE ".tmp") with temp_file.
  destruct ((_ >> _) w) as [[[]|e] w1]; simpl.
  - exists []. by rewrite app_nil_r, world_eta.
  - destruct (exn_cls e); eexists [_]; reflexivity.
Qed.

Lemma save_data_steps_files data w :
  files (save_data data w).2 = files (run_steps (save_steps data) w).2.
Proof. destruct (save_data_steps data w) as [msgs ->]. reflexivity. Qed.

Lemma save_steps_length data :
  length (save_steps data) = 3 + String.length (json_dump data).
Proof.
  unfold save_steps. simpl. rewrite length_app, length_map. simpl.
  assert (∀ s, length (chars s) = String.length s) as ->; [|lia].
  induction s; simpl; congruence.
Qed.

(** Stopped anywhere, a save has either left the canonical file alone or
    put the whole new text in its place. *)
Lemma interrupted_on_disk k data w :
  on_disk (interrupted k data w) = on_disk w ∨
  on_disk (interrupted k data w) = Some (json_dump data).
Proof.
  unfold interrupted.
  destruct (decide (k < length (save_steps data))) as [Hk|Hk].
  - left.
    assert (writing w (run_steps (take k (save_steps data)) w).2) as [_ Hfs].
    { apply run_steps_keeps; [|by split; [|left]].
      unfold save_steps.
      rewrite app_assoc, take_app_le.
      2:{ rewrite save_steps_length in Hk. rewrite length_app. simpl.
          rewrite length_map.
          assert (∀ s, length (chars s) = String.length s) as ->; [|lia].
          induction s; simpl; congruence. }
      apply Forall_take, Forall_app. split.
      - constructor; [apply sys_mkdir_keeps|].
        constructor; [apply sys_open_w_keeps|constructor].
      - apply Forall_forall. intros s [c [-> _]]%list_elem_of_fmap.
        apply sys_write_keeps. }
    unfold on_disk. destruct Hfs as [->|[t ->]]; [done|].
    apply lookup_insert_ne, temp_file_ne.
  - rewrite take_ge by lia.
    unfold on_disk. rewrite <- save_data_steps_files.
    destruct (save_data_spec data w) as (w' & -> & _ & Hres).
    destruct (first_fault w (save_calls data)); cbn [snd].
    + left. destruct Hres as [->|[t ->]]; [done|].
      apply lookup_insert_ne, temp_file_ne.
    + right. destruct Hres as [-> _]. apply lookup_insert_eq.
Qed.
End SaveSteps.

(** ** The modelled [json] module reads back what it writes *)

Module PyJsonFacts.
Import PyJson.

Lemma scan_string_escape c s :
  scan_string (escape c +:+ s) =
  match scan_string s with
  | Some (body, tail) => Some (String c body, tail)
  | None => None
  end.
Proof. destruct c as [[] [] [] [] [] [] [] []]; reflexivity. Qed.

Lemma scan_string_escape_all s rest :
  scan_string (escape_all s +:+ String quote rest) = Some (s, rest).
Proof.
  induction s as [|c s IH]; [reflexivity|].
  simpl. rewrite append_assoc, scan_string_escape, IH. reflexivity.
Qed.

Lemma skip_ws_spaces n s : skip_ws (spaces n +:+ s) = skip_ws s.
Proof. induction n as [|n IH]; [done|]. simpl. exact IH. Qed.

Lemma skip_ws_indent n s : skip_ws (indent n +:+ s) = skip_ws s.
Proof. unfold indent. simpl. apply skip_ws_spaces. Qed.

Lemma skip_ws_start c s : starts_value c = true → skip_ws (String c s) = String c s.
Proof.
  unfold starts_value. simpl. destruct (is_ws c); [done|reflexivity].
Qed.

(** *** Integers *)

Lemma span_digits_uint d rest :
  no_digit_head rest →
  span_digits (NilEmpty.string_of_uint d +:+ rest) = (d, rest).
Proof.
  intros Hrest. induction d; simpl; try (rewrite IHd; reflexivity).
  destruct rest as [|c rest]; [done|]. simpl in *. by rewrite Hrest.
Qed.

Lemma to_uint_normal p : Decimal.unorm (Pos.to_uint p) = Pos.to_uint p.
Proof.
  rewrite <- (DecimalPos.Unsigned.to_of (Pos.to_uint p)).
  by rewrite DecimalPos.Unsigned.of_to.
Qed.

Lemma to_uint_head p : ∀ d, Pos.to_uint p ≠ Decimal.D0 d.
Proof.
  intros d E. pose proof (to_uint_normal p) as Hn. rewrite E in Hn.
  rewrite DecimalFacts.unorm_D0 in Hn.
  destruct d as [|d|d|d|d|d|d|d|d|d|d].
  - by apply (DecimalPos.Unsigned.to_uint_nonzero p).
  - rewrite DecimalFacts.unorm_D0 in Hn.
    pose proof (DecimalFacts.nb_digits_unorm (Decimal.D0 d)) as Hle.
    rewrite DecimalFacts.unorm_D0, Hn in Hle. simpl in Hle.
    specialize (Hle ltac:(done)). lia.
  - pose proof (DecimalFacts.nb_digits_unorm (Decimal.D1 d) ltac:(done)) as Hle.
    rewrite Hn in Hle. simpl in Hle. lia.
  - pose proof (DecimalFacts.nb_digits_unorm (Decimal.D2 d) ltac:(done)) as Hle.
    rewrite Hn in Hle. simpl in Hle. lia.
  - pose proof (DecimalFacts.nb_digits_unorm (Decimal.D3 d) ltac:(done)) as Hle.
    rewrite Hn in Hle. simpl in Hle. lia.
  - pose proof (DecimalFacts.nb_digits_unorm (Decimal.D4 d) ltac:(done)) as Hle.
    rewrite Hn in Hle. simpl in Hle. lia.
  - pose proof (DecimalFacts.nb_digits_unorm (Decimal.D5 d) ltac:(done)) as Hle.
    rewrite Hn in Hle. simpl in Hle. lia.
  - pose proof (DecimalFacts.nb_digits_unorm (Decimal.D6 d) ltac:(done)) as Hle.
    rewrite Hn in Hle. simpl in Hle. lia.
  - pose proof (DecimalFacts.nb_digits_unorm (Decimal.D7 d) ltac:(done)) as Hle.
    rewrite Hn in Hle. simpl in Hle. lia.
  - pose proof (DecimalFacts.nb_digits_unorm (Decimal.D8 d) ltac:(done)) as Hle.
    rewrite Hn in Hle. simpl in Hle. lia.
  - pose proof (DecimalFacts.nb_digits_unorm (Decimal.D9 d) ltac:(done)) as Hle.
    rewrite Hn in Hle. simpl in Hle. lia.
Qed.

Lemma scan_natural_pos p rest :
  no_digit_head rest →
  scan_natural (NilEmpty.string_of_uint (Pos.to_uint p) +:+ rest) = Some (Npos p, rest).
Proof.
  intros Hrest. pose proof (to_uint_head p) as Hhead.
  pose proof (DecimalPos.Unsigned.of_to p) as Hof.
  unfold scan_natural.
  destruct (Pos.to_uint p) as [|d|d|d|d|d|d|d|d|d|d] eqn:E;
    [by destruct (DecimalPos.Unsigned.to_uint_nonnil p)|by destruct (Hhead d)|..];
    simpl; rewrite span_digits_uint by done;
    change (N.of_uint ?x) with (Pos.of_uint x); rewrite Hof; reflexivity.
Qed.

Lemma encode_int_head n :
  ∃ c s, encode_int n = String c s ∧ int_start c = true.
Proof.
  destruct n as [|p|p]; simpl; [by eexists _, _|..|by eexists _, _].
  pose proof (DecimalPos.Unsigned.to_uint_nonnil p).
  destruct (Pos.to_uint p); [done|by eexists _, _..].
Qed.

Lemma scan_int_encode n rest :
  no_digit_head rest → scan_int (encode_int n +:+ rest) = Some (n, rest).
Proof.
  intros Hrest. destruct n as [|p|p]; [reflexivity|..].
  - pose proof (scan_natural_pos p rest Hrest) as Hs.
    pose proof (to_uint_head p) as Hhead.
    pose proof (DecimalPos.Unsigned.to_uint_nonnil p) as Hnil.
    unfold encode_int in *.
    destruct (Pos.to_uint p); [done|by destruct (Hhead u)|..];
      simpl in *; by rewrite Hs.
  - simpl. by rewrite scan_natural_pos.
Qed.

Lemma parse_value_int fuel c s :
  int_start c = true →
  parse_value (S fuel) (String c s) =
  match scan_int (String c s) with
  | Some (n, tail) => Some (VInt n, tail)
  | None => None
  end.
Proof.
  intros Hc.
  destruct c as [[] [] [] [] [] [] [] []]; try discriminate Hc; reflexivity.
Qed.

Lemma int_start_starts_value c : int_start c = true → starts_value c = true.
Proof.
  intros Hc.
  destruct c as [[] [] [] [] [] [] [] []]; try discriminate Hc; reflexivity.
Qed.

(** *** Values *)

(** Induction on values with the hypotheses for the elements of a list
    and the entries of a dictionary. *)
Lemma value_nested_ind (P : value → Prop) :
  P VNone → (∀ b, P (VBool b)) → (∀ n, P (VInt n)) → (∀ s, P (VStr s)) →
  (∀ l, Forall P l → P (VList l)) →
  (∀ d, Forall (λ kv, P kv.2) d → P (VDict d)) →
  ∀ v, P v.
Proof.
  intros HNone HBool HInt HStr HList HDict.
  fix IH 1. intros [ |b|n|s|l|d]; [done..| |].
  - apply HList. induction l as [|x l IHl]; constructor; [apply IH|exact IHl].
  - apply HDict. induction d as [|[k x] d IHd]; constructor; [apply IH|exact IHd].
Qed.

Lemma encode_list level l :
  encode level (VList l) = block "[" "]" level (map (encode (S level)) l).
Proof. reflexivity. Qed.

Lemma encode_dict level d :
  encode level (VDict d) = block "{" "}" level (map (member_text (S level)) d).
Proof. reflexivity. Qed.

Lemma encode_head v level :
  ∃ c s, encode level v = String c s ∧ starts_value c = true.
Proof.
  destruct v as [ |[]|n|s|l|d]; try (by eexists _, _).
  - destruct (encode_int_head n) as (c & s & E & Hc).
    exists c, s. split; [done|]. by apply int_start_starts_value.
  - rewrite encode_list. destruct l; by eexists _, _.
  - rewrite encode_dict. destruct d; by eexists _, _.
Qed.

Lemma skip_ws_encode v level rest :
  skip_ws (encode level v +:+ rest) = encode level v +:+ rest.
Proof.
  destruct (encode_head v level) as (c & s & -> & Hc).
  by apply skip_ws_start.
Qed.

Lemma expect_hit c s : expect c (String c s) = Some s.
Proof. simpl. by rewrite Ascii.eqb_refl. Qed.

Lemma expect_start c c' s :
  starts_value c' = true → starts_value c = false → expect c (String c' s) = None.
Proof.
  intros Hc' Hc. simpl. destruct (Ascii.eqb_spec c c') as [->|]; [congruence|done].
Qed.

Lemma expect_encode c v level rest :
  starts_value c = false → expect c (encode level v +:+ rest) = None.
Proof.
  intros Hc. destruct (encode_head v level) as (c' & s & -> & Hc').
  by apply expect_start.
Qed.

Lemma lines_cons level a items :
  items ≠ [] → lines level (a :: items) = indent level +:+ a +:+ "," +:+ lines level items.
Proof. by destruct items. Qed.

Lemma no_digit_head_indent k s : no_digit_head (indent k +:+ s).
Proof. reflexivity. Qed.

Lemma parse_elements_lines l :
  l ≠ [] → Forall reads_back l →
  ∀ level k fuel rest,
    list_sum (map (λ x, S (need x)) l) ≤ fuel →
    parse_elements fuel
      (skip_ws (lines level (map (encode level) l) +:+ indent k +:+ "]" +:+ rest))
    = Some (l, rest).
Proof.
  induction l as [|x l IH]; [done|]. intros _ Hall level k fuel rest Hfuel.
  apply Forall_cons in Hall as [Hx Hl]. simpl in Hfuel.
  destruct fuel as [|fuel]; [lia|].
  destruct (decide (l = [])) as [->|Hne].
  - change (lines level (map (encode level) [x])) with (indent level +:+ encode level x).
    rewrite append_assoc, skip_ws_indent, skip_ws_encode. simpl parse_elements.
    rewrite Hx by (lia || apply no_digit_head_indent).
    rewrite skip_ws_indent. reflexivity.
  - rewrite map_cons, lines_cons by (by destruct l).
    rewrite !append_assoc, skip_ws_indent, skip_ws_encode. simpl parse_elements.
    rewrite Hx by (lia || done).
    change (skip_ws ("," +:+ ?s)) with (String ","%char s).
    rewrite expect_hit. rewrite IH by (done || lia). reflexivity.
Qed.

Lemma parse_members_lines d :
  d ≠ [] → Forall (λ kv, reads_back kv.2) d →
  ∀ level k fuel rest,
    list_sum (map (λ kv, match kv with (_, x) => S (need x) end) d) ≤ fuel →
    parse_members fuel
      (skip_ws (lines level (map (member_text level) d) +:+ indent k +:+ "}" +:+ rest))
    = Some (d, rest).
Proof.
  induction d as [|[key x] d IH]; [done|]. intros _ Hall level k fuel rest Hfuel.
  apply Forall_cons in Hall as [Hx Hd]. simpl in Hx, Hfuel.
  destruct fuel as [|fuel]; [lia|].
  assert (∀ tail, no_digit_head tail →
    parse_members (S fuel) (member_text level (key, x) +:+ tail) =
    match expect "," (skip_ws tail) with
    | Some rest4 =>
        match parse_members fuel (skip_ws rest4) with
        | Some (kvs, tail') => Some ((key, x) :: kvs, tail')
        | None => None
        end
    | None =>
        match expect "}" (skip_ws tail) with
        | Some tail' => Some ([(key, x)], tail')
        | None => None
        end
    end) as Hmember.
  { intros tail Htail. unfold member_text, encode_string.
    rewrite !append_assoc. simpl parse_members.
    rewrite append_assoc.
    change (String quote "" +:+ ?s) with (String quote s).
    rewrite scan_string_escape_all. simpl. rewrite append_nil_l.
    rewrite skip_ws_encode, Hx by (lia || done). reflexivity. }
  destruct (decide (d = [])) as [->|Hne].
  - change (lines level (map (member_text level) [(key, x)]))
      with (indent level +:+ member_text level (key, x)).
    rewrite append_assoc, skip_ws_indent.
    change (skip_ws (member_text level (key, x) +:+ ?s))
      with (member_text level (key, x) +:+ s).
    rewrite Hmember by apply no_digit_head_indent.
    rewrite skip_ws_indent. reflexivity.
  - rewrite map_cons, lines_cons by (by destruct d).
    rewrite !append_assoc, skip_ws_indent.
    change (skip_ws (member_text level (key, x) +:+ ?s))
      with (member_text level (key, x) +:+ s).
    rewrite Hmember by done.
    change (skip_ws ("," +:+ ?s)) with (String ","%char s).
    rewrite expect_hit. rewrite IH by (done || lia). reflexivity.
Qed.

Lemma dict_set_fresh k v acc :
  k ∉ map fst acc → dict_set k v acc = acc ++ [(k, v)].
Proof.
  induction acc as [|[k' v'] acc IH]; intros Hk; [done|]. simpl in *.
  apply not_elem_of_cons in Hk as [Hne Hk].
  destruct (String.eqb_spec k k') as [->|_]; [done|]. by rewrite IH.
Qed.

Lemma dict_of_pairs_nodup kvs : ∀ acc,
  NoDup (map fst (acc ++ kvs)) → dict_of_pairs acc kvs = acc ++ kvs.
Proof.
  induction kvs as [|[k v] kvs IH]; intros acc Hnd; simpl.
  - by rewrite app_nil_r.
  - rewrite dict_set_fresh.
    + rewrite IH; rewrite <- app_assoc; [done|exact Hnd].
    + rewrite map_app in Hnd. apply NoDup_app in Hnd as (_ & Hdisj & _).
      intros Hin. apply (Hdisj k Hin). simpl. left.
Qed.

Lemma block_nonempty {A} opening closing level (f : A → string) (l : list A) :
  l ≠ [] →
  block opening closing level (map f l)
  = opening +:+ lines (S level) (map f l) +:+ indent level +:+ closing.
Proof. by destruct l. Qed.

(** Every value Python can hold is read back from its text. *)
Lemma reads_back_all v : wf_value v → reads_back v.
Proof.
  induction v as [ |b|n|s|l IHl|d IHd] using value_nested_ind;
    intros Hwf level fuel rest Hfuel Hrest;
    (destruct fuel as [|fuel]; [simpl in Hfuel; lia|]).
  - reflexivity.
  - by destruct b.
  - destruct (encode_int_head n) as (c & s & E & Hc).
    pose proof (scan_int_encode n rest Hrest) as Hscan.
    simpl encode. rewrite E in *. rewrite append_cons in *.
    by rewrite parse_value_int, Hscan.
  - simpl encode. unfold encode_string. rewrite append_cons.
    simpl parse_value. rewrite append_assoc.
    change (String quote "" +:+ ?s) with (String quote s).
    by rewrite scan_string_escape_all.
  - inversion Hwf as [ | | | |l' Hl| ]; subst.
    assert (Forall reads_back l) as Hall.
    { rewrite Forall_forall in IHl, Hl |- *. intros x Hx. by apply IHl, Hl. }
    rewrite encode_list. destruct (decide (l = [])) as [->|Hne]; [reflexivity|].
    rewrite block_nonempty by done.
    rewrite !append_assoc. simpl parse_value.
    rewrite append_nil_l, parse_elements_lines by (done || (simpl in *; lia)).
    destruct l as [|x l]; [done|].
    destruct (decide (l = [])) as [->|Hne'].
    + change (lines (S level) (map (encode (S level)) [x]))
        with (indent (S level) +:+ encode (S level) x).
      rewrite !append_assoc, skip_ws_indent, skip_ws_encode, expect_encode by done.
      reflexivity.
    + rewrite map_cons, lines_cons by (by destruct l).
      rewrite !append_assoc, skip_ws_indent, skip_ws_encode, expect_encode by done.
      reflexivity.
  - inversion Hwf as [ | | | | |d' Hnd Hd]; subst.
    assert (Forall (λ kv, reads_back kv.2) d) as Hall.
    { rewrite Forall_forall in IHd, Hd |- *. intros x Hx. by apply IHd, Hd. }
    rewrite encode_dict. destruct (decide (d = [])) as [->|Hne]; [reflexivity|].
    rewrite block_nonempty by done.
    rewrite !append_assoc. simpl parse_value.
    rewrite append_nil_l, parse_members_lines by (done || (simpl in *; lia)).
    rewrite dict_of_pairs_nodup by done.
    destruct d as [|[k x] d]; [done|].
    destruct (decide (d = [])) as [->|Hne'].
    + change (lines (S level) (map (member_text (S level)) [(k, x)]))
        with (indent (S level) +:+ member_text (S level) (k, x)).
      rewrite !append_assoc, skip_ws_indent. reflexivity.
    + rewrite map_cons, lines_cons by (by destruct d).
      rewrite !append_assoc, skip_ws_indent. reflexivity.
Qed.

Lemma lines_length level (items : list string) (ns : list nat) :
  Forall2 (λ n item, n ≤ String.length item) ns items →
  list_sum (map S ns) ≤ String.length (lines level items).
Proof.
  induction 1 as [|n item ns items Hn Hrest IH]; [done|].
  destruct items as [|item' items].
  - apply Forall2_nil_inv_r in Hrest as ->. simpl.
    rewrite length_append. unfold indent. simpl. lia.
  - rewrite lines_cons by done. rewrite !length_append. simpl in *. lia.
Qed.

Lemma need_length v : ∀ level, need v ≤ String.length (encode level v).
Proof.
  induction v as [ |b|n|s|l IHl|d IHd] using value_nested_ind; intros level.
  - simpl. lia.
  - destruct b; simpl; lia.
  - destruct (encode_int_head n) as (c & s & E & _). simpl. rewrite E. simpl. lia.
  - simpl. lia.
  - rewrite encode_list. destruct (decide (l = [])) as [->|Hne]; [simpl; lia|].
    rewrite block_nonempty by done. rewrite !length_append. simpl.
    pose proof (lines_length (S level) (map (encode (S level)) l) (map need l)) as Hlen.
    rewrite map_map in Hlen. etrans; [|apply le_n_S, Nat.le_add_r].
    apply le_n_S, Hlen. apply Forall2_fmap, Forall_Forall2_diag.
    eapply Forall_impl; [exact IHl|]. naive_solver.
  - rewrite encode_dict. destruct (decide (d = [])) as [->|Hne]; [simpl; lia|].
    rewrite block_nonempty by done. rewrite !length_append. simpl.
    pose proof (lines_length (S level) (map (member_text (S level)) d)
                  (map (λ kv, need kv.2) d)) as Hlen.
    rewrite map_map in Hlen.
    assert (map (λ kv : string * value, let (_, x) := kv in S (need x)) d
            = map (λ x, S (need x.2)) d) as -> by (apply map_ext; by intros []).
    etrans; [|apply le_n_S, Nat.le_add_r].
    apply le_n_S, Hlen. apply Forall2_fmap, Forall_Forall2_diag.
    eapply Forall_impl; [exact IHd|]. intros [k x] Hx. simpl in *.
    rewrite !length_append. specialize (Hx (S level)). lia.
Qed.

Theorem loads_dumps v : wf_value v → loads (dumps v) = Ok v.
Proof.
  intros Hwf. unfold loads, dumps.
  rewrite <- (append_nil_r (encode 0 v)) at 2.
  rewrite skip_ws_encode, (reads_back_all v Hwf); [reflexivity| |done].
  pose proof (need_length v 0). lia.
Qed.

Lemma wf_task t : wf_value (task_value t).
Proof.
  constructor.
  - apply (bool_decide_unpack _). vm_compute. exact I.
  - repeat constructor.
Qed.

Lemma wf_document d : wf_value (document_value d).
Proof.
  constructor.
  - apply (bool_decide_unpack _). vm_compute. exact I.
  - constructor; [|repeat constructor]. simpl. constructor.
    induction (tasks d) as [|t ts IH]; constructor; [apply wf_task|exact IH].
Qed.

Lemma platform_round_trips home_dir d : @round_trips (platform home_dir) d.
Proof. apply loads_dumps, wf_document. Qed.
End PyJsonFacts.

(** * The claims *)

Section Claims.
Context `{Platform}.

(** C1.  In every state reachable from the default document by add,
    complete and delete invocations, whether they return or raise, the
    ids of the stored tasks are pairwise distinct and all below
    [next_id]; and no invocation makes [next_id] smaller.  Here [w] is any
    reachable world, [w'] the world one more invocation [c] leaves, and
    [d], [d'] the documents their stores hold. *)
Theorem reachable_ids_ok (cs : list command) (c : command) (w0 : World) :
  (∀ d, round_trips d) → holds w0 default_document →
  let w := (run cs w0).2 in
  let w' := (run_command c w).2 in
  ∃ d d', holds w d ∧ holds w' d' ∧ ids_ok d ∧ ids_ok d' ∧
          (next_id d ≤ next_id d')%Z.
Proof.
  intros Hrt Hh0 w w'.
  destruct (run_holds cs default_document w0 Hrt Hh0) as (cs' & _ & Hh).
  fold w in Hh.
  pose proof (apply_commands_ids_ok cs' _ default_ids_ok) as Hok.
  destruct (command_outcome c _ w Hrt Hh) as (r & w1 & Hrun & _ & Hres).
  assert (w' = w1) as -> by (unfold w'; by rewrite Hrun).
  exists (apply_commands cs' default_document).
  destruct Hres as [[_ Hh1]|[_ Hh1]].
  - exists (apply_commands cs' default_document).
    split; [done|]. split; [done|]. split; [done|]. split; [done|lia].
  - exists (apply_command c (apply_commands cs' default_document)).
    split; [done|]. split; [done|]. split; [done|]. split.
    + by apply apply_command_ids_ok.
    + apply apply_command_next_id.
Qed.







(** C8.  An error of the system is raised to the caller as it is, a
    permission failure as [PermissionError]: [load_data] on a file it may
    not read raises the error of the read and [load_data] on a text on
    which [json.load] raises anything but [JSONDecodeError] raises that;
    [save_data] raises the error of the first system call that fails and
    leaves the canonical file as it was.  In none of these cases is a
    document returned. *)
Theorem io_errors_surface (w : World) :
  (∀ text e,
     on_disk w = Some text → fault w (SysOpenRead STORAGE_FILE) = Some e →
     (load_data w).1 = Raise (os_exn e) ∧ files (load_data w).2 = files w) ∧
  (∀ text e,
     on_disk w = Some text → fault w (SysOpenRead STORAGE_FILE) = None →
     json_load text = Raise e → exn_cls e ≠ JSONDecodeError →
     (load_data w).1 = Raise e) ∧
  (∀ data e,
     first_fault w (save_calls data) = Some e →
     (save_data data w).1 = Raise (os_exn e) ∧
     on_disk (save_data data w).2 = on_disk w) ∧
  (∀ data c e,
     c ∈ save_calls data → fault w c = Some e →
     ∃ e', first_fault w (save_calls data) = Some e') ∧
  (∀ e, exn_cls (os_exn e) = PermissionError ↔ e = EACCES ∨ e = EPERM).
Proof.
  split; [|split; [|split; [|split]]].
  - intros text e Hd Hr.
    by destruct (load_data_read_fault w text e Hd Hr) as [msg ->].
  - intros text e Hd Hr He Hcls. rewrite (load_data_present w text Hd Hr).
    unfold accept. rewrite He. by destruct (exn_cls e).
  - intros data e He.
    destruct (save_data_spec data w) as (w' & -> & _ & Hres). rewrite He in *.
    split; [done|]. unfold on_disk. cbn [snd].
    destruct Hres as [->|[t ->]]; [done|]. apply lookup_insert_ne, temp_file_ne.
  - intros data c e Hin Hc. induction (save_calls data) as [|c' cs IH]; [by inversion Hin|].
    simpl. destruct (fault w c') as [e'|] eqn:E; [by exists e'|].
    apply elem_of_cons in Hin as [->|Hin]; [congruence|by apply IH].
  - intros e. destruct e; simpl; intuition congruence.
Qed.

(** C9.  [save_data] writes the whole text to a temporary file in the
    directory of the canonical file and then renames it onto the
    canonical path.  Stopped after any number of its steps, and also when
    it returns or raises, the canonical file holds either what it held
    before or the whole new text; a save that returns has put the new
    text there. *)
Theorem save_is_atomic (data : value) (w : World) (k : nat) :
  parent temp_file = parent STORAGE_FILE ∧
  temp_file ≠ STORAGE_FILE ∧
  (on_disk (interrupted k data w) = on_disk w ∨
   on_disk (interrupted k data w) = Some (json_dump data)) ∧
  (on_disk (save_data data w).2 = on_disk w ∨
   on_disk (save_data data w).2 = Some (json_dump data)) ∧
  ((save_data data w).1 = Ok tt → on_disk (save_data data w).2 = Some (json_dump data)).
Proof.
  split; [reflexivity|]. split; [apply temp_file_ne|].
  split; [apply interrupted_on_disk|].
  destruct (save_data_spec data w) as (w' & -> & _ & Hres). unfold on_disk.
  destruct (first_fault w (save_calls data)); cbn [fst snd].
  - split; [|done]. left.
    destruct Hres as [->|[t ->]]; [done|]. apply lookup_insert_ne, temp_file_ne.
  - destruct Hres as [-> _]. rewrite lookup_insert_eq. split; [by right|done].
Qed.

End Claims.

(** * The claims at concrete stores *)

Section Witnesses.
Existing Instance host.

Lemma quiet_fault_free files out : fault_free (mkWorld files out quiet).
Proof. intros c. reflexivity. Qed.

Lemma host_round_trips d : round_trips d.
Proof. apply PyJsonFacts.platform_round_trips. Qed.

Lemma stocked_world_loads : loads stocked_world chores.
Proof. vm_compute. reflexivity. Qed.

Lemma reachable_ids_ok_witness :
  holds cramped_world default_document ∧
  ∃ d d',
    holds (run [Add "A" "t1"; Add "B" "t2"; Delete 1] cramped_world).2 d ∧
    holds (run_command (Add "C" "t3")
             (run [Add "A" "t1"; Add "B" "t2"; Delete 1] cramped_world).2).2 d' ∧
    ids_ok d ∧ ids_ok d' ∧ (next_id d ≤ next_id d')%Z.
Proof.
  split; [reflexivity|].
  apply (reachable_ids_ok [Add "A" "t1"; Add "B" "t2"; Delete 1] (Add "C" "t3")
           cramped_world).
  - apply host_round_trips.
  - reflexivity.
Defined.







Lemma io_errors_surface_witness :
  (load_data locked_world).1 = Raise (os_exn EACCES) ∧
  exn_cls (os_exn EACCES) = PermissionError ∧
  first_fault full_world (save_calls (document_value chores)) = Some ENOSPC ∧
  (save_data (document_value chores) full_world).1 = Raise (os_exn ENOSPC) ∧
  on_disk (save_data (document_value chores) full_world).2 = on_disk full_world.
Proof.
  destruct (io_errors_surface locked_world) as (Hread & _ & _ & _ & Hperm).
  destruct (io_errors_surface full_world) as (_ & _ & Hsave & _).
  split.
  { apply (Hread (PyJson.dumps (document_value chores)) EACCES); reflexivity. }
  split; [apply Hperm; by left|].
  split; [vm_compute; reflexivity|].
  apply Hsave. vm_compute; reflexivity.
Defined.

Lemma save_is_atomic_witness :
  (on_disk (interrupted 30 (document_value default_document) stocked_world)
   = on_disk stocked_world ∨
   on_disk (interrupted 30 (document_value default_document) stocked_world)
   = Some (json_dump (document_value default_document))) ∧
  on_disk (save_data (document_value default_document) stocked_world).2
  = Some (json_dump (document_value default_document)).
Proof.
  destruct (save_is_atomic (document_value default_document) stocked_world 30)
    as (_ & _ & Hmid & _ & Hend).
  split; [exact Hmid|]. apply Hend. vm_compute; reflexivity.
Defined.

End Witnesses.

(** * The task manager and the command line, operation by operation *)

(** ** Reading operations *)

Section Reading.
Context `{Platform}.

Lemma lift_world {A} (r : result A) w : (lift r w).2 = w.
Proof. reflexivity. Qed.

(** X1.  [load_data], [list_tasks] and [get_task] write no file, whatever
    the store holds and whatever the system answers. *)
Theorem reads_never_write (task_id : Z) (w : World) :
  files (load_data w).2 = files w ∧
  files (list_tasks w).2 = files w ∧
  files (get_task task_id w).2 = files w.
Proof.
  destruct (load_data_frame w) as [msgs Hw].
  unfold list_tasks, get_task, bind, lift.
  destruct (load_data w) as [[data|e] w1]; simpl in *; subst w1;
    repeat split; try reflexivity.
  destruct (getitem data "tasks") as [ts|e]; [|reflexivity].
  by destruct (py_iter ts).
Qed.
End Reading.

(** ** Lookups in the data model *)

Lemma find_app_miss task_id (ts us : list Task) :
  Forall (λ u, id u ≠ task_id) ts →
  List.find (has_id task_id) (ts ++ us) = List.find (has_id task_id) us.
Proof.
  induction 1 as [|t ts Ht _ IH]; [done|]. simpl. unfold has_id at 1.
  destruct (Z.eqb_spec (id t) task_id); [done|exact IH].
Qed.

Lemma find_miss task_id (ts : list Task) :
  Forall (λ u, id u ≠ task_id) ts → List.find (has_id task_id) ts = None.
Proof.
  intros Hts. rewrite <- (app_nil_r ts). by rewrite find_app_miss.
Qed.


Lemma find_complete_first_same task_id ts ts' :
  complete_first task_id ts = Some ts' →
  List.find (has_id task_id) ts' = option_map mark_completed (List.find (has_id task_id) ts).
Proof.
  revert ts'. induction ts as [|t ts IH]; intros ts'; simpl; [done|].
  destruct (has_id task_id t) eqn:E.
  - intros [= <-]. simpl. unfold has_id in *. simpl. by rewrite E.
  - destruct (complete_first task_id ts) as [ts0|]; simpl; [|done].
    intros [= <-]. simpl. rewrite E. by apply IH.
Qed.

Lemma find_complete_first_other task_id other ts ts' :
  other ≠ task_id →
  complete_first task_id ts = Some ts' →
  List.find (has_id other) ts' = List.find (has_id other) ts.
Proof.
  intros Hne. revert ts'. induction ts as [|t ts IH]; intros ts'; simpl; [done|].
  unfold has_id at 1. destruct (Z.eqb_spec (id t) task_id) as [E|NE].
  - intros [= <-]. simpl. unfold has_id. simpl.
    destruct (Z.eqb_spec (id t) other); [congruence|done].
  - destruct (complete_first task_id ts) as [ts0|]; simpl; [|done].
    intros [= <-]. simpl. destruct (has_id other t); [done|by apply IH].
Qed.




Lemma find_without_id_other task_id other ts :
  other ≠ task_id →
  List.find (has_id other) (without_id task_id ts) = List.find (has_id other) ts.
Proof.
  intros Hne. unfold without_id. induction ts as [|t ts IH]; [done|]. simpl.
  destruct (has_id task_id t) eqn:E1, (has_id other t) eqn:E2; simpl;
    rewrite ?E2; try done.
  unfold has_id in E1, E2. apply Z.eqb_eq in E1, E2. congruence.
Qed.

(** ** One operation after another *)

Section Composition.
Context `{Platform}.

Lemma bind_ret_world {A B} (m : M A) (f : A → B) w :
  ((let! a := m in ret (f a)) w).2 = (m w).2.
Proof. unfold bind, ret. by destruct (m w) as [[a|e] w1]. Qed.

Lemma after_command c d w :
  (∀ d', round_trips d') → fault_free w → loads w d →
  loads (run_command c w).2 (apply_command c d) ∧ fault_free (run_command c w).2.
Proof.
  intros Hrt Hff Hl.
  by destruct (run_command_step c d w Hrt Hff Hl) as (w' & -> & Hl' & Hff').
Qed.


Lemma after_complete task_id d w :
  (∀ d', round_trips d') → fault_free w → loads w d →
  loads (complete_task task_id w).2 (apply_command (Complete task_id) d) ∧
  fault_free (complete_task task_id w).2.
Proof.
  intros Hrt Hff Hl. rewrite <- (bind_ret_world (complete_task task_id) VBool).
  by apply (after_command (Complete task_id)).
Qed.

Lemma after_delete task_id d w :
  (∀ d', round_trips d') → fault_free w → loads w d →
  loads (delete_task task_id w).2 (apply_command (Delete task_id) d) ∧
  fault_free (delete_task task_id w).2.
Proof.
  intros Hrt Hff Hl. rewrite <- (bind_ret_world (delete_task task_id) VBool).
  by apply (after_command (Delete task_id)).
Qed.

Lemma get_task_loads task_id d w :
  loads w d →
  (get_task task_id w).1 = Ok (option_map task_value (List.find (has_id task_id) (tasks d))).
Proof. intros Hl. by destruct (get_task_run task_id d w Hl) as (w' & -> & _). Qed.

Lemma complete_task_loads task_id d w :
  fault_free w → loads w d →
  (complete_task task_id w).1
  = Ok (bool_decide (is_Some (complete_first task_id (tasks d)))).
Proof.
  intros Hff Hl. pose proof (complete_task_run task_id d w Hff Hl) as Hrun.
  destruct (complete_first task_id (tasks d)); by destruct Hrun as (w' & -> & _).
Qed.

Lemma delete_task_loads task_id d w :
  fault_free w → loads w d →
  (delete_task task_id w).1
  = Ok (bool_decide (length (without_id task_id (tasks d)) < length (tasks d))).
Proof.
  intros Hff Hl. pose proof (delete_task_run task_id d w Hff Hl) as Hrun.
  case_decide; destruct Hrun as (w' & -> & _); simpl;
    [by rewrite bool_decide_eq_true_2|by rewrite bool_decide_eq_false_2].
Qed.

(** X2.  [list_tasks] returns every task of the loaded document, in the
    order they are stored. *)
Theorem list_tasks_spec (d : Document) (w : World) :
  loads w d → (list_tasks w).1 = Ok (VList (map task_value (tasks d))).
Proof. intros Hl. by destruct (list_tasks_run d w Hl) as (w' & -> & _). Qed.

(** X3.  [get_task] returns the first task with the id, and [None] when no
    task has it. *)
Theorem get_task_spec (task_id : Z) (d : Document) (w : World) :
  loads w d →
  (∀ l1 t l2,
     tasks d = l1 ++ t :: l2 → id t = task_id →
     Forall (λ u, id u ≠ task_id) l1 →
     (get_task task_id w).1 = Ok (Some (task_value t))) ∧
  (Forall (λ u, id u ≠ task_id) (tasks d) → (get_task task_id w).1 = Ok None).
Proof.
  intros Hl. rewrite (get_task_loads task_id d w Hl). split.
  - intros l1 t l2 -> Ht Hl1. rewrite find_app_miss by done. simpl.
    unfold has_id. by rewrite Ht, Z.eqb_refl.
  - intros Hnone. by rewrite find_miss.
Qed.



(** X6.  After [complete_task] has answered true, [get_task] with that id
    returns the task it returned before with [completed] true and nothing
    else changed, and with any other id what it returned before. *)
Theorem complete_then_get (task_id : Z) (d : Document) (w : World) :
  (∀ d', round_trips d') → fault_free w → loads w d →
  (complete_task task_id w).1 = Ok true →
  let w' := (complete_task task_id w).2 in
  (∃ t, (get_task task_id w).1 = Ok (Some (task_value t)) ∧
        (get_task task_id w').1 = Ok (Some (task_value (mark_completed t)))) ∧
  ∀ other, other ≠ task_id → (get_task other w').1 = (get_task other w).1.
Proof.
  intros Hrt Hff Hl Htrue w'.
  destruct (after_complete task_id d w Hrt Hff Hl) as [Hl' _]. fold w' in Hl'.
  rewrite (complete_task_loads task_id d w Hff Hl) in Htrue.
  simpl in Hl'. destruct (complete_first task_id (tasks d)) as [ts'|] eqn:E;
    [|by rewrite bool_decide_eq_false_2 in Htrue by (by intros [? ?])].
  split.
  - rewrite (get_task_loads _ _ _ Hl'), (get_task_loads _ _ _ Hl). simpl.
    rewrite (find_complete_first_same _ _ _ E).
    destruct (proj2 (find_complete_first task_id (tasks d))) as [t Ht];
      [by rewrite E|].
    exists t. by rewrite Ht.
  - intros other Hne.
    rewrite (get_task_loads _ _ _ Hl'), (get_task_loads _ _ _ Hl). simpl.
    by rewrite (find_complete_first_other _ _ _ _ Hne E).
Qed.



(** X9.  After [delete_task], [get_task] with any other id returns what
    it returned before. *)
Theorem delete_keeps_others (task_id other : Z) (d : Document) (w : World) :
  (∀ d', round_trips d') → fault_free w → loads w d →
  other ≠ task_id →
  (get_task other (delete_task task_id w).2).1 = (get_task other w).1.
Proof.
  intros Hrt Hff Hl Hne.
  destruct (after_delete task_id d w Hrt Hff Hl) as [Hl' _].
  rewrite (get_task_loads _ _ _ Hl'), (get_task_loads _ _ _ Hl). simpl.
  by rewrite find_without_id_other.
Qed.
End Composition.

(** ** Stores that are not documents, and what a save touches *)

Section OddStores.
Context `{Platform}.


(** X11.  [save_data] touches two paths only: every other file is as it
    was, whether the save returns or raises; and a save that returns
    leaves no temporary file. *)
Theorem save_data_footprint (data : value) (w : World) :
  (∀ p, p ≠ STORAGE_FILE → p ≠ temp_file →
        files (save_data data w).2 !! p = files w !! p) ∧
  ((save_data data w).1 = Ok tt → files (save_data data w).2 !! temp_file = None).
Proof.
  destruct (save_data_spec data w) as (w' & -> & _ & Hres).
  destruct (first_fault w (save_calls data)); cbn [fst snd].
  - split; [|done]. intros p Hp Ht.
    destruct Hres as [->|[t ->]]; [done|]. by apply lookup_insert_ne.
  - destruct Hres as [-> _]. split.
    + intros p Hp Ht. rewrite lookup_insert_ne by done. by apply lookup_delete_ne.
    + intros _. rewrite lookup_insert_ne by apply not_eq_sym, temp_file_ne.
      apply lookup_delete_eq.
Qed.


Lemma dict_contains_get k (fields : list (string * value)) :
  dict_contains k fields = true → is_Some (dict_get k fields).
Proof.
  induction fields as [|[k' v] fields IH]; simpl; [done|].
  destruct (String.eqb k k'); [by eexists|exact IH].
Qed.

Lemma load_data_keys w data :
  (load_data w).1 = Ok data →
  ∃ fields, data = VDict fields ∧
            dict_contains "tasks" fields = true ∧
            dict_contains "next_id" fields = true.
Proof.
  destruct (on_disk w) as [text|] eqn:Hd.
  2:{ rewrite (load_data_missing w Hd). intros [= <-]. by eexists. }
  destruct (fault w (SysOpenRead STORAGE_FILE)) as [e|] eqn:Hr.
  { by destruct (load_data_read_fault w text e Hd Hr) as [msg ->]. }
  rewrite (load_data_present w text Hd Hr). unfold accept.
  destruct (json_load text) as [v|e].
  - destruct v; try (intros [= <-]; by eexists).
    destruct (dict_contains "tasks" d) eqn:Et, (dict_contains "next_id" d) eqn:En;
      simpl; intros [= <-]; by eexists.
  - destruct (exn_cls e); try done. intros [= <-]. by eexists.
Qed.

(** X12.  Whatever [load_data] returns is an object with the keys
    ["tasks"] and ["next_id"]: the task manager never fails to find them. *)
Theorem load_data_returns_object (w : World) (data : value) :
  (load_data w).1 = Ok data →
  ∃ fields, data = VDict fields ∧
            is_Some (dict_get "tasks" fields) ∧
            is_Some (dict_get "next_id" fields).
Proof.
  intros Hload. destruct (load_data_keys w data Hload) as (fields & -> & Ht & Hn).
  exists fields. split; [done|]. split; by apply dict_contains_get.
Qed.

End OddStores.

(** ** The command line *)

Section CliFacts.
Context `{Platform} `{Builtins}.

Lemma cmd_add_tame now args w : tame (cmd_add now args w).1.
Proof.
  destruct args as [|arg args]; [reflexivity|].
  unfold cmd_add, bind, lift.
  destruct (add_task _ now w) as [[task|e] w1]; [|done].
  destruct (getitem task "id"); [|done].
  by destruct (getitem task "description").
Qed.

Lemma cmd_list_tame args w : tame (cmd_list args w).1.
Proof.
  unfold cmd_list, bind, lift. destruct (list_tasks w) as [[tasks|e] w1]; [|done].
  destruct (py_truthy tasks); simpl; [|done].
  destruct (py_len tasks) as [n|e]; [|done]. simpl.
  destruct (py_iter tasks) as [elems|e]; [|done].
  by destruct (print_tasks elems _) as [[[]|e] w2].
Qed.

Lemma cmd_done_tame args w : tame (cmd_done args w).1.
Proof.
  destruct args as [|arg args]; [reflexivity|]. unfold cmd_done.
  destruct (py_int arg) as [task_id|]; [|reflexivity]. unfold bind at 1.
  destruct (complete_task task_id w) as [[[]|e] w1]; done.
Qed.

Lemma cmd_delete_tame args w : tame (cmd_delete args w).1.
Proof.
  destruct args as [|arg args]; [reflexivity|]. unfold cmd_delete.
  destruct (py_int arg) as [task_id|]; [|reflexivity]. unfold bind at 1.
  destruct (delete_task task_id w) as [[[]|e] w1]; done.
Qed.

Lemma commands_tame now command handler args w :
  commands now command = Some handler → tame (handler args w).1.
Proof.
  unfold commands.
  destruct (String.eqb command "add"); [intros [= <-]; apply cmd_add_tame|].
  destruct (String.eqb command "list"); [intros [= <-]; apply cmd_list_tame|].
  destruct (String.eqb command "done"); [intros [= <-]; apply cmd_done_tame|].
  destruct (String.eqb command "delete"); [intros [= <-]; apply cmd_delete_tame|done].
Qed.

(** X14.  [main] never ends in an exception: whatever the arguments,
    the store and the answers of the system, it returns (exit status 0) or
    exits with status 1.  ([KeyboardInterrupt], for which [main] exits with
    status 130, is no exception of this model, and [print] cannot fail.) *)
Theorem main_exit_status (now : string) (argv : list string) (w : World) :
  ∃ o, (main now argv w).1 = Ok o ∧ (exit_status o = 0%Z ∨ exit_status o = 1%Z).
Proof.
  destruct argv as [|prog [|name args]]; [by eexists; split; [|right]..|].
  unfold main. destruct (commands now (py_lower name)) as [handler|] eqn:Hc.
  - pose proof (commands_tame now _ handler args w Hc) as Ht.
    unfold try_except. destruct (handler args w) as [[[[]|status]|e] w1]; simpl in *.
    + eexists. split; [done|by left].
    + subst. eexists. split; [done|by right].
    + eexists. split; [done|by right].
  - eexists. split; [done|by right].
Qed.

(** X15.  Called with no command, or with a command that is none of the
    four, [main] prints the usage, exits with status 1 and does not go
    near the store: the world is as before, but for the lines printed. *)
Theorem main_bad_invocation (now : string) (argv : list string) (w : World) :
  (length argv < 2 → main now argv w = (Ok (Exited 1), printed [USAGE] w)) ∧
  (∀ prog name args,
     argv = prog :: name :: args →
     py_lower name ∉ ["add"; "list"; "done"; "delete"] →
     main now argv w
     = (Ok (Exited 1),
        printed ["Error: Unknown command '" +:+ py_lower name +:+ "'"; USAGE] w)).
Proof.
  split.
  - intros Hlen. destruct argv as [|prog [|name args]]; [reflexivity..|simpl in Hlen; lia].
  - intros prog name args -> Hunknown. unfold main, commands.
    destruct (String.eqb_spec (py_lower name) "add") as [E|_];
      [rewrite E in Hunknown; set_solver|].
    destruct (String.eqb_spec (py_lower name) "list") as [E|_];
      [rewrite E in Hunknown; set_solver|].
    destruct (String.eqb_spec (py_lower name) "done") as [E|_];
      [rewrite E in Hunknown; set_solver|].
    destruct (String.eqb_spec (py_lower name) "delete") as [E|_];
      [rewrite E in Hunknown; set_solver|].
    unfold printed, print_usage, print, sys_exit, bind, ret. simpl.
    by rewrite <- app_assoc.
Qed.

Lemma join_cons_ne sep word words :
  words ≠ [] → join sep (word :: words) = word +:+ sep +:+ join sep words.
Proof. by destruct words. Qed.


(** X17.  [cmd_done] without an argument, or with a first argument that
    [int] refuses, exits with status 1 and does not go near the store.
    With a first argument that is the integer [task_id] (further arguments
    are ignored) it returns when [complete_task task_id] answers true, exits
    with status 1 when it answers false, raises what it raises, and writes
    what it writes. *)
Theorem cmd_done_spec (args : list string) (w : World) :
  (args = [] →
   ∃ line1 line2, cmd_done args w = (Ok (Exited 1), printed [line1; line2] w)) ∧
  (∀ arg rest, args = arg :: rest → py_int arg = None →
   ∃ line, cmd_done args w = (Ok (Exited 1), printed [line] w)) ∧
  (∀ arg rest task_id, args = arg :: rest → py_int arg = Some task_id →
   (cmd_done args w).1 =
     match (complete_task task_id w).1 with
     | Ok true => Ok (Returned tt)
     | Ok false => Ok (Exited 1)
     | Raise e => Raise e
     end ∧
   files (cmd_done args w).2 = files (complete_task task_id w).2).
Proof.
  split; [|split].
  - intros ->. eexists _, _. unfold cmd_done, printed, print, sys_exit, bind, ret.
    simpl. by rewrite <- app_assoc.
  - intros arg rest -> Hint. unfold cmd_done. rewrite Hint. by eexists.
  - intros arg rest task_id -> Hint. unfold cmd_done. rewrite Hint. unfold bind.
    by destruct (complete_task task_id w) as [[[]|e] w1].
Qed.

(** X18.  [cmd_delete] without an argument, or with a first argument that
    [int] refuses, exits with status 1 and does not go near the store.
    With a first argument that is the integer [task_id] it returns when
    [delete_task task_id] answers true, exits with status 1 when it answers
    false, raises what it raises, and writes what it writes. *)
Theorem cmd_delete_spec (args : list string) (w : World) :
  (args = [] →
   ∃ line1 line2, cmd_delete args w = (Ok (Exited 1), printed [line1; line2] w)) ∧
  (∀ arg rest, args = arg :: rest → py_int arg = None →
   ∃ line, cmd_delete args w = (Ok (Exited 1), printed [line] w)) ∧
  (∀ arg rest task_id, args = arg :: rest → py_int arg = Some task_id →
   (cmd_delete args w).1 =
     match (delete_task task_id w).1 with
     | Ok true => Ok (Returned tt)
     | Ok false => Ok (Exited 1)
     | Raise e => Raise e
     end ∧
   files (cmd_delete args w).2 = files (delete_task task_id w).2).
Proof.
  split; [|split].
  - intros ->. eexists _, _. unfold cmd_delete, printed, print, sys_exit, bind, ret.
    simpl. by rewrite <- app_assoc.
  - intros arg rest -> Hint. unfold cmd_delete. rewrite Hint. by eexists.
  - intros arg rest task_id -> Hint. unfold cmd_delete. rewrite Hint. unfold bind.
    by destruct (delete_task task_id w) as [[[]|e] w1].
Qed.

Lemma format_task_value t : format_task (task_value t) = Ok (task_line t).
Proof. unfold format_task, task_line. simpl. by destruct (completed t). Qed.

Lemma print_tasks_values ts w :
  print_tasks (map task_value ts) w = (Ok tt, printed (map task_line ts) w).
Proof.
  revert w. induction ts as [|t ts IH]; intros w; simpl.
  - unfold ret, printed. by rewrite app_nil_r, world_eta.
  - unfold bind, lift. rewrite format_task_value. simpl. rewrite IH.
    unfold printed. simpl. by rewrite <- app_assoc.
Qed.

(** X19.  [cmd_list] on a loaded document writes no file and returns.
    With no task it prints one line that says so; otherwise it prints a
    header with the number of tasks, one line for each task in stored
    order - a check mark for a completed task, the id, the description -
    and an empty line. *)
Theorem cmd_list_spec (args : list string) (d : Document) (w : World) :
  loads w d →
  ∃ out,
    cmd_list args w = (Ok (Returned tt), printed out (load_data w).2) ∧
    files (load_data w).2 = files w ∧
    if decide (tasks d = []) then length out = 1
    else out = [line_break +:+ "You have "
                +:+ py_str (VInt (Z.of_nat (length (tasks d)))) +:+ " task(s):"
                +:+ line_break]
               ++ map task_line (tasks d) ++ [""].
Proof.
  intros Hl. destruct (load_data_loads w d Hl) as (w1 & Hload & Hfs & _).
  rewrite Hload. simpl.
  unfold cmd_list, list_tasks. unfold bind at 1 2. rewrite Hload. simpl.
  destruct (tasks d) as [|t ts] eqn:E; simpl.
  - eexists [_]. by split.
  - eexists. split; [|split; [done|reflexivity]].
    unfold bind, lift. simpl. rewrite format_task_value. simpl.
    unfold bind, lift, print. simpl.
    rewrite print_tasks_values. unfold printed. simpl. rewrite length_map.
    by rewrite <- !app_assoc.
Qed.
End CliFacts.

(** ** Entries that are no tasks, and failures of the store *)

Section Malformed.
Context `{Platform}.

Lemma keep_others_bad task_id (before : list Task) bad rest e :
  getitem bad "id" = Raise e →
  keep_others task_id (map task_value before ++ bad :: rest) = Raise e.
Proof.
  intros Hbad. induction before as [|t before IH]; simpl.
  - by rewrite Hbad.
  - by rewrite IH.
Qed.

Lemma get_scan_bad task_id (before : list Task) bad rest e :
  getitem bad "id" = Raise e →
  get_scan task_id (map task_value before ++ bad :: rest)
  = match List.find (has_id task_id) before with
    | Some t => Ok (Some (task_value t))
    | None => Raise e
    end.
Proof.
  intros Hbad. induction before as [|t before IH]; simpl.
  - by rewrite Hbad.
  - unfold has_id at 1. by destruct (id t =? task_id)%Z.
Qed.

Lemma complete_scan_bad data task_id (before : list Task) bad rest e :
  getitem bad "id" = Raise e →
  Forall (λ u, id u ≠ task_id) before →
  ∀ seen w,
    complete_scan data task_id seen (map task_value before ++ bad :: rest) w
    = (Raise e, w).
Proof.
  intros Hbad. induction 1 as [|t before Ht _ IH]; intros seen w; simpl.
  - unfold bind, lift. by rewrite Hbad.
  - unfold bind, lift. simpl. destruct (Z.eqb_spec (id t) task_id); [done|].
    apply IH.
Qed.

(** X20.  When an entry of the stored list has no ["id"] (or is no
    object), [delete_task] raises the error of the first such entry and
    writes nothing, whatever id it was asked for; [get_task] returns a task
    with the id that stands before that entry, and raises otherwise;
    [complete_task] raises when no task before the entry has the id. *)
Theorem entry_without_id (task_id : Z) (fields : list (string * value))
    (before : list Task) (bad : value) (rest : list value) (e : exn) (w : World) :
  loads_value w (VDict fields) →
  dict_get "tasks" fields = Some (VList (map task_value before ++ bad :: rest)) →
  getitem bad "id" = Raise e →
  delete_task task_id w = (Raise e, w) ∧
  get_task task_id w
  = (match List.find (has_id task_id) before with
     | Some t => Ok (Some (task_value t))
     | None => Raise e
     end, w) ∧
  (Forall (λ u, id u ≠ task_id) before → complete_task task_id w = (Raise e, w)).
Proof.
  intros Hload Ht Hbad. repeat split.
  - unfold delete_task, bind, lift. rewrite Hload. simpl. rewrite Ht. simpl.
    by rewrite (keep_others_bad _ _ _ _ _ Hbad).
  - unfold get_task, bind, lift. rewrite Hload. simpl. rewrite Ht. simpl.
    by rewrite (get_scan_bad _ _ _ _ _ Hbad).
  - intros Hbefore. unfold complete_task, bind, lift. rewrite Hload. simpl.
    rewrite Ht. simpl. by apply complete_scan_bad.
Qed.

Lemma add_task_load_raise description now e w :
  (load_data w).1 = Raise e → add_task description now w = (Raise e, (load_data w).2).
Proof. unfold add_task, bind. by destruct (load_data w) as [[data|e'] w1]; intros [= ->]. Qed.

Lemma list_tasks_load_raise e w :
  (load_data w).1 = Raise e → list_tasks w = (Raise e, (load_data w).2).
Proof. unfold list_tasks, bind. by destruct (load_data w) as [[data|e'] w1]; intros [= ->]. Qed.

Lemma complete_task_load_raise task_id e w :
  (load_data w).1 = Raise e → complete_task task_id w = (Raise e, (load_data w).2).
Proof.
  unfold complete_task, bind. by destruct (load_data w) as [[data|e'] w1]; intros [= ->].
Qed.

Lemma delete_task_load_raise task_id e w :
  (load_data w).1 = Raise e → delete_task task_id w = (Raise e, (load_data w).2).
Proof.
  unfold delete_task, bind. by destruct (load_data w) as [[data|e'] w1]; intros [= ->].
Qed.

Lemma get_task_load_raise task_id e w :
  (load_data w).1 = Raise e → get_task task_id w = (Raise e, (load_data w).2).
Proof.
  unfold get_task, bind. by destruct (load_data w) as [[data|e'] w1]; intros [= ->].
Qed.

Lemma load_data_files w : files (load_data w).2 = files w.
Proof. destruct (load_data_frame w) as [msgs ->]. reflexivity. Qed.

(** X21.  An exception of [load_data] passes through the task manager:
    each of its five operations raises the same exception, does nothing
    after the load, and writes no file. *)
Theorem load_failure_propagates (description now : string) (task_id : Z)
    (e : exn) (w : World) :
  (load_data w).1 = Raise e →
  add_task description now w = (Raise e, (load_data w).2) ∧
  list_tasks w = (Raise e, (load_data w).2) ∧
  complete_task task_id w = (Raise e, (load_data w).2) ∧
  delete_task task_id w = (Raise e, (load_data w).2) ∧
  get_task task_id w = (Raise e, (load_data w).2) ∧
  files (load_data w).2 = files w.
Proof.
  intros Hload. repeat split.
  - by apply add_task_load_raise.
  - by apply list_tasks_load_raise.
  - by apply complete_task_load_raise.
  - by apply delete_task_load_raise.
  - by apply get_task_load_raise.
  - apply load_data_files.
Qed.

Lemma same_text_refl t : same_text t t.
Proof. by repeat split. Qed.

Lemma complete_first_same_text task_id ts ts' :
  complete_first task_id ts = Some ts' →
  Forall (λ t', ∃ t, t ∈ ts ∧ same_text t t') ts'.
Proof.
  intros (l1 & t & l2 & -> & _ & _ & ->)%complete_first_Some.
  apply Forall_forall. intros t' [Hin|Hin]%elem_of_app.
  - exists t'. split; [set_solver|apply same_text_refl].
  - apply elem_of_cons in Hin as [->|Hin].
    + exists t. split; [set_solver|by repeat split].
    + exists t'. split; [set_solver|apply same_text_refl].
Qed.

(** X22.  No operation rewrites a task: after an invocation of [add_task],
    [complete_task] or [delete_task], every stored task is a task that was
    stored before, with the same id, description and creation time and
    still completed if it was - or it is the one task that [add_task]
    added. *)
Theorem tasks_keep_text (c : command) (d : Document) (w : World) :
  (∀ d', round_trips d') → fault_free w → loads w d →
  ∃ d',
    loads (run_command c w).2 d' ∧
    Forall (λ t', (∃ t, t ∈ tasks d ∧ same_text t t') ∨
                  (is_add c = true ∧ id t' = next_id d ∧ completed t' = false))
           (tasks d').
Proof.
  intros Hrt Hff Hl.
  destruct (run_command_step c d w Hrt Hff Hl) as (w' & -> & Hl' & _).
  exists (apply_command c d). split; [exact Hl'|].
  destruct c as [description now|task_id|task_id]; simpl.
  - apply Forall_app. split.
    + apply Forall_forall. intros t Ht. left. exists t.
      split; [done|apply same_text_refl].
    + apply Forall_singleton. by right.
  - destruct (complete_first task_id (tasks d)) as [ts'|] eqn:E; simpl.
    + eapply Forall_impl; [by apply (complete_first_same_text task_id)|].
      intros t' Ht'. by left.
    + apply Forall_forall. intros t Ht. left. exists t.
      split; [done|apply same_text_refl].
  - apply Forall_forall. intros t Ht. left. exists t.
    split; [|apply same_text_refl].
    unfold without_id in Ht.
    apply list_elem_of_In, List.filter_In in Ht as [Ht _]. by apply list_elem_of_In.
Qed.
End Malformed.

(** ** The command line, from the arguments to the store *)

Section EndToEnd.
Context `{Platform} `{Builtins}.

Lemma commands_add now : commands now "add" = Some (cmd_add now).
Proof. reflexivity. Qed.

Lemma commands_list now : commands now "list" = Some cmd_list.
Proof. reflexivity. Qed.

Lemma commands_done now : commands now "done" = Some cmd_done.
Proof. reflexivity. Qed.

Lemma commands_delete now : commands now "delete" = Some cmd_delete.
Proof. reflexivity. Qed.

(** X23.  When the store cannot be loaded, every command that reaches it
    - [add] with a description, [list], [done] and [delete] with a number -
    prints [Error: ] followed by the exception, exits with status 1 and
    writes no file. *)
Theorem main_load_failure (now prog name : string) (args : list string)
    (e : exn) (w : World) :
  (load_data w).1 = Raise e →
  reaches_store (py_lower name) args →
  main now (prog :: name :: args) w
  = (Ok (Exited 1), printed ["Error: " +:+ exn_str e] (load_data w).2) ∧
  files (load_data w).2 = files w.
Proof.
  intros Hload Hreach. split; [|apply load_data_files].
  unfold main.
  destruct Hreach as [[-> Hargs]|[->|[[->| ->] (arg & rest & task_id & -> & Hint)]]];
    rewrite ?commands_add, ?commands_list, ?commands_done, ?commands_delete;
    unfold try_except.
  - destruct args as [|arg args]; [done|]. unfold cmd_add. unfold bind at 1.
    by rewrite (add_task_load_raise _ _ e w Hload).
  - unfold cmd_list. unfold bind at 1. by rewrite (list_tasks_load_raise e w Hload).
  - unfold cmd_done. rewrite Hint. unfold bind at 1.
    by rewrite (complete_task_load_raise _ e w Hload).
  - unfold cmd_delete. rewrite Hint. unfold bind at 1.
    by rewrite (delete_task_load_raise _ e w Hload).
Qed.


End EndToEnd.

(** ** The statements above on the stores of this file *)

Section MoreWitnesses.
Existing Instance host.
Existing Instance Ascii7.builtins.


Lemma complete_laundry : (complete_task 2 stocked_world).1 = Ok true.
Proof. vm_compute. reflexivity. Qed.



Lemma ragged_world_loads :
  loads_value ragged_world
    (VDict [("tasks", VList (map task_value [groceries; laundry]
                             ++ nameless :: [task_value letters]));
            ("next_id", VInt 5)]).
Proof. vm_compute. reflexivity. Qed.

Lemma locked_world_raises : (load_data locked_world).1 = Raise (os_exn EACCES).
Proof. vm_compute. reflexivity. Qed.

Lemma list_tasks_spec_witness :
  loads stocked_world chores ∧
  (list_tasks stocked_world).1
  = Ok (VList [task_value groceries; task_value laundry; task_value letters]).
Proof.
  split; [apply stocked_world_loads|].
  apply (list_tasks_spec chores stocked_world). apply stocked_world_loads.
Defined.

Lemma get_task_spec_witness :
  loads stocked_world chores ∧
  (get_task 2 stocked_world).1 = Ok (Some (task_value laundry)) ∧
  (get_task 3 stocked_world).1 = Ok None.
Proof.
  split; [apply stocked_world_loads|]. split.
  - apply (proj1 (get_task_spec 2 chores stocked_world stocked_world_loads)
             [groceries] laundry [letters]); [reflexivity..|].
    repeat constructor. discriminate.
  - apply (proj2 (get_task_spec 3 chores stocked_world stocked_world_loads)).
    repeat constructor; discriminate.
Defined.



Lemma complete_then_get_witness :
  fault_free stocked_world ∧ loads stocked_world chores ∧
  (complete_task 2 stocked_world).1 = Ok true ∧
  (∃ t, (get_task 2 stocked_world).1 = Ok (Some (task_value t)) ∧
        (get_task 2 (complete_task 2 stocked_world).2).1
        = Ok (Some (task_value (mark_completed t)))) ∧
  (get_task 1 (complete_task 2 stocked_world).2).1 = (get_task 1 stocked_world).1.
Proof.
  split; [apply quiet_fault_free|]. split; [apply stocked_world_loads|].
  split; [apply complete_laundry|].
  destruct (complete_then_get 2 chores stocked_world
              host_round_trips (quiet_fault_free _ _) stocked_world_loads
              complete_laundry) as [Hsame Hother].
  split; [exact Hsame|]. apply Hother. discriminate.
Defined.



Lemma delete_keeps_others_witness :
  fault_free stocked_world ∧ loads stocked_world chores ∧ 4%Z ≠ 2%Z ∧
  (get_task 4 (delete_task 2 stocked_world).2).1 = (get_task 4 stocked_world).1.
Proof.
  split; [apply quiet_fault_free|]. split; [apply stocked_world_loads|].
  split; [discriminate|].
  apply (delete_keeps_others 2 4 chores stocked_world).
  - apply host_round_trips.
  - apply quiet_fault_free.
  - apply stocked_world_loads.
  - discriminate.
Defined.


Lemma save_data_footprint_witness :
  let notes := Path "/home/user" "notes.txt" in
  let w := mkWorld (<[notes := "milk"]> (files stocked_world)) [] quiet in
  notes ≠ STORAGE_FILE ∧ notes ≠ temp_file ∧
  files (save_data (document_value default_document) w).2 !! notes = Some "milk" ∧
  (save_data (document_value default_document) w).1 = Ok tt ∧
  files (save_data (document_value default_document) w).2 !! temp_file = None.
Proof.
  intros notes w.
  destruct (save_data_footprint (document_value default_document) w) as [Hrest Htemp].
  split; [discriminate|]. split; [discriminate|]. split.
  - rewrite (Hrest notes); [reflexivity|discriminate..].
  - split; [vm_compute; reflexivity|]. apply Htemp. vm_compute; reflexivity.
Defined.

Lemma load_data_returns_object_witness :
  (load_data broken_world).1 = Ok (document_value default_document) ∧
  ∃ fields, document_value default_document = VDict fields ∧
            is_Some (dict_get "tasks" fields) ∧
            is_Some (dict_get "next_id" fields).
Proof.
  split; [vm_compute; reflexivity|].
  apply (load_data_returns_object broken_world). vm_compute; reflexivity.
Defined.


Lemma main_bad_invocation_witness :
  length ["todo"] < 2 ∧
  main "2024-01-03T07:30:00" ["todo"] stocked_world
  = (Ok (Exited 1), printed [USAGE] stocked_world) ∧
(py_lower "Undo" ∉ ["add"; "list"; "done"; "delete"]) ∧
  main "2024-01-03T07:30:00" ["todo"; "Undo"; "3"] stocked_world
  = (Ok (Exited 1),
     printed ["Error: Unknown command 'undo'"; USAGE] stocked_world).
Proof.
  assert (py_lower "Undo" ∉ ["add"; "list"; "done"; "delete"]) as Hunknown.
  { intros Hin. repeat (apply elem_of_cons in Hin as [Hin|Hin]; [discriminate|]).
    by apply elem_of_nil in Hin. }
  split; [simpl; lia|]. split.
  - apply (proj1 (main_bad_invocation "2024-01-03T07:30:00" ["todo"] stocked_world)).
    simpl; lia.
  - split; [exact Hunknown|].
    exact (proj2 (main_bad_invocation "2024-01-03T07:30:00" ["todo"; "Undo"; "3"]
                    stocked_world) "todo" "Undo" ["3"] eq_refl Hunknown).
Defined.


Lemma cmd_done_spec_witness :
  (∃ line1 line2,
     cmd_done [] stocked_world = (Ok (Exited 1), printed [line1; line2] stocked_world)) ∧
  py_int "two" = None ∧
  (∃ line, cmd_done ["two"] stocked_world = (Ok (Exited 1), printed [line] stocked_world)) ∧
  py_int " 2 " = Some 2%Z ∧
  (cmd_done [" 2 "; "3"] stocked_world).1 =
    match (complete_task 2 stocked_world).1 with
    | Ok true => Ok (Returned tt)
    | Ok false => Ok (Exited 1)
    | Raise e => Raise e
    end ∧
  files (cmd_done [" 2 "; "3"] stocked_world).2 = files (complete_task 2 stocked_world).2.
Proof.
  split.
  { apply (proj1 (cmd_done_spec [] stocked_world)). reflexivity. }
  split; [reflexivity|]. split.
  { apply (proj1 (proj2 (cmd_done_spec ["two"] stocked_world)) "two" []); reflexivity. }
  split; [reflexivity|].
  apply (proj2 (proj2 (cmd_done_spec [" 2 "; "3"] stocked_world)) " 2 " ["3"] 2%Z);
    reflexivity.
Defined.

Lemma cmd_delete_spec_witness :
  (∃ line1 line2,
     cmd_delete [] stocked_world
     = (Ok (Exited 1), printed [line1; line2] stocked_world)) ∧
  py_int "2.0" = None ∧
  (∃ line,
     cmd_delete ["2.0"] stocked_world = (Ok (Exited 1), printed [line] stocked_world)) ∧
  py_int "7" = Some 7%Z ∧
  (cmd_delete ["7"] stocked_world).1 =
    match (delete_task 7 stocked_world).1 with
    | Ok true => Ok (Returned tt)
    | Ok false => Ok (Exited 1)
    | Raise e => Raise e
    end ∧
  files (cmd_delete ["7"] stocked_world).2 = files (delete_task 7 stocked_world).2.
Proof.
  split.
  { apply (proj1 (cmd_delete_spec [] stocked_world)). reflexivity. }
  split; [reflexivity|]. split.
  { apply (proj1 (proj2 (cmd_delete_spec ["2.0"] stocked_world)) "2.0" []); reflexivity. }
  split; [reflexivity|].
  apply (proj2 (proj2 (cmd_delete_spec ["7"] stocked_world)) "7" [] 7%Z); reflexivity.
Defined.

Lemma cmd_list_spec_witness :
  loads stocked_world chores ∧
  ∃ out,
    cmd_list [] stocked_world
    = (Ok (Returned tt), printed out (load_data stocked_world).2) ∧
    files (load_data stocked_world).2 = files stocked_world ∧
    if decide (tasks chores = []) then length out = 1
    else out = [line_break +:+ "You have "
                +:+ py_str (VInt (Z.of_nat (length (tasks chores)))) +:+ " task(s):"
                +:+ line_break]
               ++ map task_line (tasks chores) ++ [""].
Proof.
  split; [apply stocked_world_loads|].
  apply (cmd_list_spec [] chores stocked_world). apply stocked_world_loads.
Defined.

Lemma entry_without_id_witness :
  loads_value ragged_world
    (VDict [("tasks", VList (map task_value [groceries; laundry]
                             ++ nameless :: [task_value letters]));
            ("next_id", VInt 5)]) ∧
  getitem nameless "id" = Raise (Exn KeyError "id") ∧
  delete_task 4 ragged_world = (Raise (Exn KeyError "id"), ragged_world) ∧
  get_task 4 ragged_world = (Raise (Exn KeyError "id"), ragged_world) ∧
  get_task 2 ragged_world = (Ok (Some (task_value laundry)), ragged_world) ∧
  complete_task 4 ragged_world = (Raise (Exn KeyError "id"), ragged_world).
Proof.
  split; [apply ragged_world_loads|]. split; [reflexivity|].
  destruct (entry_without_id 4 _ [groceries; laundry] nameless [task_value letters]
              (Exn KeyError "id") ragged_world ragged_world_loads
              eq_refl eq_refl) as (Hdelete & Hget & Hcomplete).
  destruct (entry_without_id 2 _ [groceries; laundry] nameless [task_value letters]
              (Exn KeyError "id") ragged_world ragged_world_loads
              eq_refl eq_refl) as (_ & Hget2 & _).
  split; [exact Hdelete|]. split; [exact Hget|]. split; [exact Hget2|].
  apply Hcomplete. repeat constructor; discriminate.
Defined.

Lemma load_failure_propagates_witness :
  (load_data locked_world).1 = Raise (os_exn EACCES) ∧
  add_task "Water plants" "2024-01-03T07:30:00" locked_world
  = (Raise (os_exn EACCES), (load_data locked_world).2) ∧
  list_tasks locked_world = (Raise (os_exn EACCES), (load_data locked_world).2) ∧
  complete_task 2 locked_world = (Raise (os_exn EACCES), (load_data locked_world).2) ∧
  delete_task 2 locked_world = (Raise (os_exn EACCES), (load_data locked_world).2) ∧
  get_task 2 locked_world = (Raise (os_exn EACCES), (load_data locked_world).2) ∧
  files (load_data locked_world).2 = files locked_world.
Proof.
  split; [apply locked_world_raises|].
  apply (load_failure_propagates "Water plants" "2024-01-03T07:30:00" 2
           (os_exn EACCES) locked_world).
  apply locked_world_raises.
Defined.

Lemma tasks_keep_text_witness :
  fault_free stocked_world ∧ loads stocked_world chores ∧
  ∃ d',
    loads (run_command (Complete 2) stocked_world).2 d' ∧
    Forall (λ t', (∃ t, t ∈ tasks chores ∧ same_text t t') ∨
                  (is_add (Complete 2) = true ∧ id t' = next_id chores ∧
                   completed t' = false))
           (tasks d').
Proof.
  split; [apply quiet_fault_free|]. split; [apply stocked_world_loads|].
  apply (tasks_keep_text (Complete 2) chores stocked_world).
  - apply host_round_trips.
  - apply quiet_fault_free.
  - apply stocked_world_loads.
Defined.

Lemma main_load_failure_witness :
  (load_data locked_world).1 = Raise (os_exn EACCES) ∧
  reaches_store (py_lower "LIST") [] ∧
  main "2024-01-03T07:30:00" ["todo"; "LIST"] locked_world
  = (Ok (Exited 1),
     printed ["Error: " +:+ exn_str (os_exn EACCES)] (load_data locked_world).2) ∧
  files (load_data locked_world).2 = files locked_world.
Proof.
  assert (reaches_store (py_lower "LIST") []) as Hreach by (right; left; reflexivity).
  split; [apply locked_world_raises|]. split; [exact Hreach|].
  apply (main_load_failure "2024-01-03T07:30:00" "todo" "LIST" [] (os_exn EACCES)
           locked_world locked_world_raises Hreach).
Defined.


End MoreWitnesses.
